(** * Face recognition service (face-service/main.py): a shallow embedding

    Python floats are modelled by real numbers: every arithmetic step of the
    scoring code is exact here, and [sqrt] is the real square root, which
    [np.linalg.norm] approximates.  The external collaborators are inputs:
    the detector's output ([list face]) and the pixel statistics that numpy
    computes over a face crop (Laplacian variance, spectrum means, channel
    statistics, mean first differences) are given per integer bounding box.
    Image fetching and decoding ([download_image], [parse_base64_image]) is
    taken to have succeeded; the operations start from the decoded image.
    The mock model (InsightFace not installed) is not modelled: every
    operation below runs the real detector path.  The gallery is the
    in-process [face_gallery] dict; the Redis hash behind it has the same
    key/value behaviour (JSON round trips the stored floats unchanged). *)

From Stdlib Require Import Reals Lra Lia List String Ascii Bool ZArith Sorting.Permutation Sorting.Sorted.
Import ListNotations.
Open Scope R_scope.
Open Scope string_scope.

(** ** Python numeric helpers *)

Definition Rltb (x y : R) : bool := if Rlt_dec x y then true else false.
Definition Rleb (x y : R) : bool := if Rle_dec x y then true else false.

(** [int(x)]: truncation toward zero. *)
Definition py_int (x : R) : Z :=
  if Rle_dec 0 x then Int_part x else (- Int_part (- x))%Z.

(** [round(x)] to an integer, ties to even. *)
Definition py_round_int (y : R) : Z :=
  let f := Int_part y in
  let d := y - IZR f in
  if Rlt_dec d (1/2) then f
  else if Rlt_dec (1/2) d then (f + 1)%Z
  else if Z.even f then f else (f + 1)%Z.

(** [round(x, n)]. *)
Definition py_round (x : R) (n : nat) : R :=
  IZR (py_round_int (x * 10 ^ n)) / 10 ^ n.

(** ** Errors and the result monad

    [HTTPException] carries the status code; status 400 is what the spec
    calls a ValidationError, 404 a NotFoundError.  [ValueError] is the
    exception numpy raises, which no endpoint catches. *)

Inductive py_error :=
| HTTPException (status_code : Z) (detail : string)
| ValueError (msg : string)
| IndexError.

Definition is_validation_error (e : py_error) : bool :=
  match e with
  | HTTPException 400 _ => true
  | _ => false
  end.

Inductive result (A : Type) :=
| Ok (a : A)
| Err (e : py_error).
Arguments Ok {A} a.
Arguments Err {A} e.

Definition bind {A B} (m : result A) (k : A -> result B) : result B :=
  match m with
  | Ok a => k a
  | Err e => Err e
  end.

Notation "x <- m ;; k" := (bind m (fun x => k))
  (at level 61, m at next level, right associativity).

(** ** Configuration (environment variables read at start-up) *)

Record config := {
  MATCH_THRESHOLD : R;
  QUALITY_THRESHOLD : R;
  scipy_available : bool   (** whether [from scipy import ndimage] succeeds *)
}.

Definition default_config : config :=
  {| MATCH_THRESHOLD := 0.45; QUALITY_THRESHOLD := 0.3; scipy_available := true |}.

(** ** Detector output and pixel statistics *)

Record bbox := { x1 : R; y1 : R; x2 : R; y2 : R }.

Record face := {
  face_bbox : bbox;
  det_score : R;
  pose : option (R * R * R);   (** [face.pose], yaw, pitch, roll *)
  face_embedding : list R
}.

(** The integer box [map(int, bbox)] / [bbox.astype(int)]. *)
Definition int_box (b : bbox) : Z * Z * Z * Z :=
  (py_int (x1 b), py_int (y1 b), py_int (x2 b), py_int (y2 b)).

(** Statistics of the grayscale crop used by [calculate_blur]:
    [ndimage.laplace(gray).var()] and [np.mean(gnorm)] of [np.gradient]. *)
Inductive blur_region :=
| BlurEmpty
| BlurGray (laplacian_var : R) (gradient_mean : R).

(** Statistics of the clipped crop used by [check_liveness]. *)
Record live_stats := {
  low_freq : R;        (** mean magnitude in the 20x20 window at the spectrum centre *)
  spectrum_mean : R;   (** [np.mean(magnitude)] *)
  channels : option ((R * R * R) * (R * R * R));  (** per-channel means and stds, if 3 channels *)
  texture_grad : R     (** mean |diff| along axis 0 plus along axis 1 *)
}.

Inductive live_region :=
| LiveEmpty
| LiveRegion (s : live_stats).

Record image := {
  blur_crop : Z * Z * Z * Z -> blur_region;
  live_crop : Z * Z * Z * Z -> live_region
}.

(** ** Quality assessment *)

Definition calculate_blur (cfg : config) (img : image) (b : bbox) : R :=
  match blur_crop img (int_box b) with
  | BlurEmpty => 1
  | BlurGray variance sharpness =>
      if scipy_available cfg then
        let blur_score := Rmin (variance / 500) 1 in
        1 - blur_score
      else Rmax 0 (1 - sharpness / 30)
  end.

Record FaceQuality := {
  score : R;
  blur : R;
  pose_yaw : R;
  pose_pitch : R;
  pose_roll : R;
  face_size : Z;
  is_frontal : bool
}.

Definition pose_angles (f : face) : R * R * R :=
  match pose f with
  | Some p => p
  | None => (0, 0, 0)
  end.

(** The unrounded [quality_score] of [assess_face_quality]. *)
Definition quality_score (cfg : config) (img : image) (f : face) : R :=
  let b := face_bbox f in
  let face_width := x2 b - x1 b in
  let face_height := y2 b - y1 b in
  let face_size := py_int (face_width * face_height) in
  let '(yaw, pitch, roll) := pose_angles f in
  let blur := calculate_blur cfg img b in
  let det := det_score f in
  let pose_penalty := (Rabs yaw + Rabs pitch + Rabs roll) / 180 in
  let blur_penalty := blur in
  let size_score := Rmin (IZR face_size / (200 * 200)) 1 in
  det * 0.3 + (1 - pose_penalty) * 0.25 + (1 - blur_penalty) * 0.25 + size_score * 0.2.

Definition assess_face_quality (cfg : config) (img : image) (f : face) : FaceQuality :=
  let b := face_bbox f in
  let face_size := py_int ((x2 b - x1 b) * (y2 b - y1 b)) in
  let '(yaw, pitch, roll) := pose_angles f in
  let blur := calculate_blur cfg img b in
  let is_frontal := Rltb (Rabs yaw) 30 && Rltb (Rabs pitch) 25 && Rltb (Rabs roll) 20 in
  {| score := py_round (quality_score cfg img f) 3;
     blur := py_round blur 3;
     pose_yaw := py_round yaw 1;
     pose_pitch := py_round pitch 1;
     pose_roll := py_round roll 1;
     face_size := face_size;
     is_frontal := is_frontal |}.

(** ** Best-face selection

    [list.sort(key=..., reverse=True)] is stable: elements with equal keys
    keep their original order.  Inserting each element before the first
    element of the sorted rest whose key is not larger gives that order. *)

Fixpoint insert_desc {A} (key : A -> R) (x : A) (l : list A) : list A :=
  match l with
  | [] => [x]
  | y :: ys => if Rle_dec (key y) (key x) then x :: y :: ys else y :: insert_desc key x ys
  end.

Fixpoint sort_desc {A} (key : A -> R) (l : list A) : list A :=
  match l with
  | [] => []
  | x :: xs => insert_desc key x (sort_desc key xs)
  end.

Definition get_best_face (cfg : config) (img : image) (faces : list face) : option face :=
  match faces with
  | [f] => Some f
  | _ =>
      let scored_faces := map (fun f => (f, score (assess_face_quality cfg img f))) faces in
      match sort_desc snd scored_faces with
      | (f, _) :: _ => Some f
      | [] => None   (** [scored_faces[0]] raises IndexError; never reached *)
      end
  end.

Definition no_face_error : py_error := HTTPException 400 "No face detected in image".

Definition get_embedding (cfg : config) (img : image) (faces : list face) (return_quality : bool)
  : result (list R * R * nat * option FaceQuality) :=
  match faces with
  | [] => Err no_face_error
  | _ =>
      match get_best_face cfg img faces with
      | None => Err IndexError
      | Some f =>
          Ok (face_embedding f, det_score f, List.length faces,
              if return_quality then Some (assess_face_quality cfg img f) else None)
      end
  end.

(** ** Similarity engine *)

Fixpoint dot (a b : list R) : R :=
  match a, b with
  | x :: a', y :: b' => x * y + dot a' b'
  | _, _ => 0
  end.

Definition norm (a : list R) : R := sqrt (dot a a).

(** [np.dot] of two 1-D arrays of different lengths raises ValueError
    before the norms are looked at.  The float64 arithmetic of numpy is
    modelled by exact real arithmetic: the source's results agree with it
    up to rounding error (the cosine of [[1.0]*512] with itself is
    0.9999999999999998 there, 1 here), so a statement that compares a
    cosine with a threshold right at such a value holds only up to that
    error. *)
Definition cosine_similarity (emb1 emb2 : list R) : result R :=
  if negb (Nat.eqb (List.length emb1) (List.length emb2)) then Err (ValueError "shapes not aligned")
  else
    let d := dot emb1 emb2 in
    let norm_a := norm emb1 in
    let norm_b := norm emb2 in
    if Req_dec_T norm_a 0 then Ok 0
    else if Req_dec_T norm_b 0 then Ok 0
    else Ok (d / (norm_a * norm_b)).

(** ** Gallery store: a Python dict, iterated in insertion order *)

Record gallery_record := {
  rec_embedding : list R;
  rec_name : option string;
  rec_metadata : list (string * string);
  rec_enrolled_at : string
}.

Definition gallery := list (string * gallery_record).

Fixpoint dict_get {V} (k : string) (d : list (string * V)) : option V :=
  match d with
  | [] => None
  | (k', v) :: d' => if String.eqb k k' then Some v else dict_get k d'
  end.

(** [d[k] = v]: an existing key keeps its position, a new key goes last.
    This is the order of the in-memory dict; with Redis, [hset] and
    [hgetall] return the hash's entries in an order of their own, so no
    statement below depends on where a new key is placed. *)
Fixpoint dict_set {V} (k : string) (v : V) (d : list (string * V)) : list (string * V) :=
  match d with
  | [] => [(k, v)]
  | (k', v') :: d' => if String.eqb k k' then (k, v) :: d' else (k', v') :: dict_set k v d'
  end.

Definition save_to_gallery (now : string) (user_id : string) (embedding : list R)
    (name : option string) (metadata : option (list (string * string))) (g : gallery) : gallery :=
  dict_set user_id
    {| rec_embedding := embedding;
       rec_name := name;
       rec_metadata := match metadata with Some m => m | None => [] end;
       rec_enrolled_at := now |} g.

Definition load_from_gallery (user_id : string) (g : gallery) : option gallery_record :=
  dict_get user_id g.

Definition get_all_gallery (g : gallery) : gallery := g.

(** ** Liveness heuristics *)

Inductive check_value :=
| CNum (r : R)
| CStr (s : string).

Definition checks := list (string * check_value).

(** [checks.get(k, default)] for the numeric entries. *)
Definition checks_get (c : checks) (k : string) (default : R) : R :=
  match dict_get k c with
  | Some (CNum r) => r
  | _ => default
  end.

Definition liveness_weights : list (string * R) :=
  [("screen_pattern", 0.25); ("color_distribution", 0.2); ("face_proportion", 0.1);
   ("detection_confidence", 0.25); ("texture_complexity", 0.2)].

(** The unrounded [confidence]: [sum(checks.get(k, 0.5) * w for k, w in weights.items())]. *)
Definition combined_confidence (c : checks) : R :=
  fold_left (fun acc kw => acc + checks_get c (fst kw) 0.5 * snd kw) liveness_weights 0.

Definition check_liveness (f : face) (img : image) : bool * R * checks :=
  let '(bx1, by1, bx2, by2) := int_box (face_bbox f) in
  match live_crop img (bx1, by1, bx2, by2) with
  | LiveEmpty => (false, 0, [("error", CStr "Invalid face region")])
  | LiveRegion st =>
      (* 1. screen moire pattern *)
      let low := low_freq st in
      let high := spectrum_mean st - low in
      let freq_ratio := high / (low + 1e-6) in
      let screen_score := 1 - Rmin (freq_ratio / 2) 1 in
      (* 2. colour distribution *)
      let color_check :=
        match channels st with
        | Some ((r_mean, g_mean, b_mean), (r_std, g_std, b_std)) =>
            let color_natural := if Rltb g_mean r_mean && Rltb b_mean g_mean then 1 else 0.6 in
            let color_variance := Rmin ((r_std + g_std + b_std) / 150) 1 in
            py_round (color_natural * 0.5 + color_variance * 0.5) 3
        | None => 0.5
        end in
      (* 3. face proportion *)
      let face_width := IZR (bx2 - bx1) in
      let face_height := IZR (by2 - by1) in
      let aspect_ratio := face_width / (face_height + 1e-6) in
      let proportion_score := if Rltb 0.6 aspect_ratio && Rltb aspect_ratio 0.9 then 1 else 0.5 in
      (* 4. detection confidence *)
      let det := det_score f in
      (* 5. texture complexity *)
      let texture_score := Rmin (texture_grad st / 25) 1 in
      let c :=
        [("screen_pattern", CNum (py_round screen_score 3));
         ("color_distribution", CNum color_check);
         ("face_proportion", CNum (py_round proportion_score 3));
         ("detection_confidence", CNum (py_round det 3));
         ("texture_complexity", CNum (py_round texture_score 3))] in
      let confidence := combined_confidence c in
      (Rltb 0.55 confidence, py_round confidence 3, c)
  end.

(** ** Endpoints *)

Notation "' p <- m ;; k" := (bind m (fun p => k))
  (at level 61, p pattern, m at next level, right associativity).

Record EmbedResponse := {
  er_embedding : list R; er_score : R; er_faces_detected : nat; er_quality : option FaceQuality }.

Definition embed (cfg : config) (img : image) (faces : list face) : result EmbedResponse :=
  '(embedding, sc, n, quality) <- get_embedding cfg img faces true ;;
  Ok {| er_embedding := embedding; er_score := sc; er_faces_detected := n; er_quality := quality |}.

Record CompareResponse := {
  cr_similarity : R; cr_match : bool; cr_threshold : R;
  cr_quality_1 : option FaceQuality; cr_quality_2 : option FaceQuality }.

Definition compare (cfg : config) (img1 : image) (faces1 : list face)
    (img2 : image) (faces2 : list face) : result CompareResponse :=
  '(emb1, _, _, quality1) <- get_embedding cfg img1 faces1 true ;;
  '(emb2, _, _, quality2) <- get_embedding cfg img2 faces2 true ;;
  similarity <- cosine_similarity emb1 emb2 ;;
  Ok {| cr_similarity := py_round similarity 4;
        cr_match := Rleb (MATCH_THRESHOLD cfg) similarity;
        cr_threshold := MATCH_THRESHOLD cfg;
        cr_quality_1 := quality1; cr_quality_2 := quality2 |}.

Record EnrollResponse := {
  en_user_id : string; en_success : bool; en_quality : option FaceQuality; en_message : string }.

(** The f-string of the rejection message is kept as its fixed prefix. *)
Definition quality_too_low_message : string := "Face quality too low".

Definition enroll (cfg : config) (now : string) (g : gallery) (user_id : string)
    (name : option string) (metadata : option (list (string * string)))
    (img : image) (faces : list face) : result (EnrollResponse * gallery) :=
  match get_embedding cfg img faces true with
  | Err (HTTPException _ detail) =>
      Ok ({| en_user_id := user_id; en_success := false; en_quality := None;
             en_message := detail |}, g)
  | Err e => Err e
  | Ok (embedding, _, _, quality) =>
      match quality with
      | Some q =>
          if Rltb (score q) (QUALITY_THRESHOLD cfg) then
            Ok ({| en_user_id := user_id; en_success := false; en_quality := quality;
                   en_message := quality_too_low_message |}, g)
          else
            Ok ({| en_user_id := user_id; en_success := true; en_quality := quality;
                   en_message := "Face enrolled successfully" |},
                save_to_gallery now user_id embedding name metadata g)
      | None =>
          Ok ({| en_user_id := user_id; en_success := true; en_quality := quality;
                 en_message := "Face enrolled successfully" |},
              save_to_gallery now user_id embedding name metadata g)
      end
  end.

Record SearchMatch := { sm_user_id : string; sm_similarity : R; sm_name : option string }.

(** The loop shared by [search] and [identify]: every gallery entry is scored
    in iteration order and kept when its similarity reaches the threshold;
    the kept entry carries [round(similarity, 4)]. *)
Fixpoint collect_matches (embedding : list R) (threshold : R) (gal : gallery)
  : result (list SearchMatch) :=
  match gal with
  | [] => Ok []
  | (user_id, data) :: gal' =>
      similarity <- cosine_similarity embedding (rec_embedding data) ;;
      rest <- collect_matches embedding threshold gal' ;;
      Ok (if Rle_dec threshold similarity
          then {| sm_user_id := user_id; sm_similarity := py_round similarity 4;
                  sm_name := rec_name data |} :: rest
          else rest)
  end.

(** [matches.sort(key=lambda x: x.similarity, reverse=True); matches[:top_k]] *)
Definition rank_matches (top_k : nat) (matches : list SearchMatch) : list SearchMatch :=
  firstn top_k (sort_desc sm_similarity matches).

Record SearchResponse := {
  sr_matches : list SearchMatch; sr_faces_detected : nat; sr_quality : option FaceQuality }.

Definition search (cfg : config) (g : gallery) (img : image) (faces : list face)
    (top_k : nat) (threshold : option R) : result SearchResponse :=
  '(embedding, _, n, quality) <- get_embedding cfg img faces true ;;
  let th := match threshold with Some t => t | None => MATCH_THRESHOLD cfg end in
  let gal := get_all_gallery g in
  match gal with
  | [] => Ok {| sr_matches := []; sr_faces_detected := n; sr_quality := quality |}
  | _ =>
      matches <- collect_matches embedding th gal ;;
      Ok {| sr_matches := rank_matches top_k matches; sr_faces_detected := n;
            sr_quality := quality |}
  end.

Record LivenessResult := { lv_is_live : bool; lv_confidence : R; lv_checks : checks }.

Record IdentifyResponse := {
  id_identified : bool; id_matches : list SearchMatch; id_best_match : option SearchMatch;
  id_quality : FaceQuality; id_liveness : LivenessResult }.

Definition identify (cfg : config) (g : gallery) (img : image) (faces : list face)
    (top_k : nat) : result IdentifyResponse :=
  match faces with
  | [] => Err no_face_error
  | _ =>
      match get_best_face cfg img faces with
      | None => Err IndexError
      | Some f =>
          let embedding := face_embedding f in
          let quality := assess_face_quality cfg img f in
          let '(is_live, live_conf, live_checks) := check_liveness f img in
          let liveness_result :=
            {| lv_is_live := is_live; lv_confidence := live_conf; lv_checks := live_checks |} in
          let gal := get_all_gallery g in
          match gal with
          | [] => Ok {| id_identified := false; id_matches := []; id_best_match := None;
                        id_quality := quality; id_liveness := liveness_result |}
          | _ =>
              matches <- collect_matches embedding (MATCH_THRESHOLD cfg * 0.8) gal ;;
              let matches := rank_matches top_k matches in
              let best_match :=
                match matches with
                | m :: _ => if Rle_dec (MATCH_THRESHOLD cfg) (sm_similarity m) then Some m else None
                | [] => None
                end in
              Ok {| id_identified := match best_match with Some _ => true | None => false end; id_matches := matches;
                    id_best_match := best_match; id_quality := quality;
                    id_liveness := liveness_result |}
          end
      end
  end.

Record VerifyResponse := {
  vr_user_id : string; vr_verified : bool; vr_similarity : R; vr_threshold : R;
  vr_quality : option FaceQuality }.

Definition verify (cfg : config) (g : gallery) (user_id : string) (img : image)
    (faces : list face) : result VerifyResponse :=
  match load_from_gallery user_id g with
  | None => Err (HTTPException 404 ("User " ++ user_id ++ " not enrolled"))
  | Some stored =>
      '(embedding, _, _, quality) <- get_embedding cfg img faces true ;;
      similarity <- cosine_similarity embedding (rec_embedding stored) ;;
      Ok {| vr_user_id := user_id; vr_verified := Rleb (MATCH_THRESHOLD cfg) similarity;
            vr_similarity := py_round similarity 4; vr_threshold := MATCH_THRESHOLD cfg;
            vr_quality := quality |}
  end.

Definition liveness (cfg : config) (img : image) (faces : list face) : result LivenessResult :=
  match faces with
  | [] => Err (HTTPException 400 "No face detected")
  | _ =>
      match get_best_face cfg img faces with
      | None => Err IndexError
      | Some f =>
          let '(is_live, confidence, c) := check_liveness f img in
          Ok {| lv_is_live := is_live; lv_confidence := confidence; lv_checks := c |}
      end
  end.

(** [error=str(e)] is kept as the caught exception itself. *)
Record BatchEmbedResult := {
  be_image_url : string; be_success : bool; be_embedding : option (list R);
  be_score : option R; be_error : option py_error }.

Definition batch_embed (cfg : config) (items : list (string * image * list face))
  : list BatchEmbedResult :=
  map (fun '(url, img, faces) =>
         match get_embedding cfg img faces false with
         | Ok (embedding, sc, _, _) =>
             {| be_image_url := url; be_success := true; be_embedding := Some embedding;
                be_score := Some sc; be_error := None |}
         | Err e =>
             {| be_image_url := url; be_success := false; be_embedding := None;
                be_score := None; be_error := Some e |}
         end) items.

(** ** Gallery removal and listing *)

(** [del d[k]] on a dict: the entry of [k] is removed, the others keep
    their order. *)
Fixpoint dict_del {V} (k : string) (d : list (string * V)) : list (string * V) :=
  match d with
  | [] => []
  | (k', v) :: d' => if String.eqb k k' then d' else (k', v) :: dict_del k d'
  end.

Definition delete_from_gallery (user_id : string) (g : gallery) : bool * gallery :=
  match dict_get user_id g with
  | Some _ => (true, dict_del user_id g)
  | None => (false, g)
  end.

Record UnenrollResponse := { un_user_id : string; un_deleted : bool }.

Definition unenroll (user_id : string) (g : gallery) : result (UnenrollResponse * gallery) :=
  let '(deleted, g') := delete_from_gallery user_id g in
  if deleted then Ok ({| un_user_id := user_id; un_deleted := true |}, g')
  else Err (HTTPException 404 ("User " ++ user_id ++ " not found in gallery")).

(** One entry of [list_gallery]: the stored record without its embedding. *)
Record GalleryUser := {
  gu_user_id : string; gu_name : option string; gu_enrolled_at : string;
  gu_metadata : list (string * string) }.

Record GalleryListing := { gl_users : list GalleryUser; gl_total : nat }.

Definition list_gallery (g : gallery) : GalleryListing :=
  let users :=
    map (fun '(user_id, data) =>
           {| gu_user_id := user_id; gu_name := rec_name data;
              gu_enrolled_at := rec_enrolled_at data; gu_metadata := rec_metadata data |})
        (get_all_gallery g) in
  {| gl_users := users; gl_total := List.length users |}.

(** ** Service state: the lazily created model and Redis client *)

(** [get_face_model()] returns either the InsightFace model or ["mock"]. *)
Inductive face_model_state := ModelLoaded | ModelMock.

(** The global [redis_client]: [None], a client, or ["unavailable"]. *)
Inductive redis_client_state := RedisUnset | RedisConnected | RedisUnavailable.

(** One call of [get_redis()].  [ping_ok] is whether connecting and
    pinging the server would succeed at the time of the call; the boolean
    returned says whether a client (rather than [None]) is returned. *)
Definition get_redis (REDIS_URL : string) (ping_ok : bool) (st : redis_client_state)
  : bool * redis_client_state :=
  let st' :=
    match st, REDIS_URL with
    | RedisUnset, String _ _ => if ping_ok then RedisConnected else RedisUnavailable
    | _, _ => st
    end in
  (match st' with RedisConnected => true | _ => false end, st').

Record HealthResponse := {
  h_status : string; h_model_loaded : bool; h_model_name : string; h_gpu_enabled : bool;
  h_redis_connected : bool; h_gallery_size : nat; h_match_threshold : R }.

(** [g] is the store in use: the Redis hash ([hlen]) or [face_gallery] ([len]). *)
Definition health (cfg : config) (USE_GPU : bool) (model : face_model_state)
    (redis_connected : bool) (g : gallery) : HealthResponse :=
  let gallery_count := List.length g in
  {| h_status := "ok";
     h_model_loaded := match model with ModelLoaded => true | ModelMock => false end;
     h_model_name := match model with ModelLoaded => "buffalo_l" | ModelMock => "mock" end;
     h_gpu_enabled := USE_GPU;
     h_redis_connected := redis_connected;
     h_gallery_size := gallery_count;
     h_match_threshold := MATCH_THRESHOLD cfg |}.

(** ** Full analysis of every detected face *)

(** [face.age] and [face.gender]; [None] when [hasattr] is false. *)
Record face_attrs := { age : option R; gender : option Z }.

Record AnalyzedFace := {
  af_bbox : bbox; af_detection_score : R; af_quality : FaceQuality;
  af_liveness : LivenessResult; af_age : option Z; af_gender : option string }.

Record AnalyzeResponse := { an_faces_detected : nat; an_faces : list AnalyzedFace }.

Definition analyze_face (cfg : config) (img : image) (fa : face * face_attrs) : AnalyzedFace :=
  let '(f, attrs) := fa in
  let quality := assess_face_quality cfg img f in
  let '(is_live, live_conf, live_checks) := check_liveness f img in
  {| af_bbox := face_bbox f;
     af_detection_score := py_round (det_score f) 3;
     af_quality := quality;
     af_liveness := {| lv_is_live := is_live; lv_confidence := live_conf; lv_checks := live_checks |};
     af_age := match age attrs with Some a => Some (py_int a) | None => None end;
     af_gender := match gender attrs with
                  | Some gd => Some (if Z.eqb gd 1 then "M" else "F")
                  | None => None
                  end |}.

Definition analyze (cfg : config) (img : image) (faces : list (face * face_attrs)) : AnalyzeResponse :=
  match faces with
  | [] => {| an_faces_detected := 0; an_faces := [] |}
  | _ => {| an_faces_detected := List.length faces; an_faces := map (analyze_face cfg img) faces |}
  end.

(** ** Image input: size limit and data-URL handling

    The network, base64 and PIL libraries are inputs: [http_get] gives the
    body as the chunks [iter_content] yields (or the message of the
    exception raised by [requests.get] / [raise_for_status]),
    [b64decode] the decoded bytes or the message of [binascii.Error], and
    [image_open] the RGB image ([Image.open] and the mode conversion) or the
    message of the exception raised. *)

Definition MAX_IMAGE_BYTES : Z := 10 * 1024 * 1024.

Definition too_large_error : py_error := HTTPException 400 "Image too large (max 10MB)".

Inductive http_response :=
| HttpFailure (msg : string)
| HttpBody (chunks : list (list Byte.byte)).

(** [for chunk in response.iter_content(...): content += chunk; if len(content) > 10MB: raise] *)
Fixpoint read_chunks (content : list Byte.byte) (chunks : list (list Byte.byte))
  : result (list Byte.byte) :=
  match chunks with
  | [] => Ok content
  | chunk :: rest =>
      let content' := (content ++ chunk)%list in
      if Z.ltb MAX_IMAGE_BYTES (Z.of_nat (List.length content')) then Err too_large_error
      else read_chunks content' rest
  end.

Definition download_image (http_get : string -> http_response)
    (image_open : list Byte.byte -> string + image) (url : string) : result image :=
  match http_get url with
  | HttpFailure msg => Err (HTTPException 400 ("Failed to download image: " ++ msg))
  | HttpBody chunks =>
      content <- read_chunks [] chunks ;;
      match image_open content with
      | inl msg => Err (HTTPException 400 ("Failed to download image: " ++ msg))
      | inr img => Ok img
      end
  end.

(** [s[len(p):]] when [s.startswith(p)]. *)
Fixpoint strip_prefix (p s : string) : option string :=
  match p, s with
  | EmptyString, _ => Some s
  | String c p', String d s' => if Ascii.eqb c d then strip_prefix p' s' else None
  | String _ _, EmptyString => None
  end.

(** The text before the first [;] and the text after it. *)
Fixpoint split_semicolon (s : string) : option (string * string) :=
  match s with
  | EmptyString => None
  | String c s' =>
      if Ascii.eqb c ";" then Some (EmptyString, s')
      else match split_semicolon s' with
           | Some (a, b) => Some (String c a, b)
           | None => None
           end
  end.

(** The longest prefix without a newline: what [.+] / [.*] can match. *)
Fixpoint take_line (s : string) : string :=
  match s with
  | EmptyString => EmptyString
  | String c s' => if Ascii.eqb c "010" then EmptyString else String c (take_line s')
  end.

(** [re.match(r'data:image/[^;]+;base64,(.+)', s).group(1)]: [[^;]+] runs
    to the first [;] and must be non-empty, [(.+)] takes the rest of the
    first line and must be non-empty; [None] when the pattern does not match. *)
Definition data_url_payload (s : string) : option string :=
  match strip_prefix "data:image/" s with
  | None => None
  | Some rest =>
      match split_semicolon rest with
      | Some (String _ _, after) =>
          match strip_prefix "base64," after with
          | Some payload =>
              match take_line payload with
              | EmptyString => None
              | p => Some p
              end
          | None => None
          end
      | _ => None
      end
  end.

Definition parse_base64_image (b64decode : string -> string + list Byte.byte)
    (image_open : list Byte.byte -> string + image) (image_data : string) : result image :=
  payload <-
    match strip_prefix "data:" image_data with
    | Some _ =>
        match data_url_payload image_data with
        | Some p => Ok p
        | None => Err (HTTPException 400 "Invalid data URL format")
        end
    | None => Ok image_data
    end ;;
  match b64decode payload with
  | inl msg => Err (HTTPException 400 ("Failed to parse image: " ++ msg))
  | inr image_bytes =>
      if Z.ltb MAX_IMAGE_BYTES (Z.of_nat (List.length image_bytes)) then Err too_large_error
      else match image_open image_bytes with
           | inl msg => Err (HTTPException 400 ("Failed to parse image: " ++ msg))
           | inr img => Ok img
           end
  end.

(** * Lemmas about the numeric helpers *)

Lemma Int_part_between (x : R) (z : Z) : IZR z <= x < IZR z + 1 -> Int_part x = z.
Proof. intros [H1 H2]. symmetry. apply Int_part_spec. lra. Qed.

Lemma Int_part_IZR (z : Z) : Int_part (IZR z) = z.
Proof. apply Int_part_between. lra. Qed.

Lemma py_int_IZR (z : Z) : py_int (IZR z) = z.
Proof.
  unfold py_int. destruct (Rle_dec 0 (IZR z)).
  - apply Int_part_IZR.
  - rewrite <- opp_IZR, Int_part_IZR. lia.
Qed.

(** Rounding to the nearest integer when the value is within 1/2 of it. *)
Lemma py_round_int_near (y : R) (z : Z) :
  IZR z - 1/2 < y < IZR z + 1/2 -> py_round_int y = z.
Proof.
  intros [H1 H2]. unfold py_round_int.
  destruct (Rle_dec (IZR z) y) as [Hle | Hlt].
  - rewrite (Int_part_between y z) by lra.
    destruct (Rlt_dec (y - IZR z) (1/2)); [reflexivity | lra].
  - rewrite (Int_part_between y (z - 1)) by (rewrite minus_IZR; lra).
    rewrite minus_IZR.
    destruct (Rlt_dec (y - (IZR z - 1)) (1/2)); [lra |].
    destruct (Rlt_dec (1/2) (y - (IZR z - 1))); [lia | lra].
Qed.

Lemma py_round_near (x : R) (n : nat) (z : Z) :
  IZR z - 1/2 < x * 10 ^ n < IZR z + 1/2 -> py_round x n = IZR z / 10 ^ n.
Proof. intros H. unfold py_round. rewrite (py_round_int_near _ z H). reflexivity. Qed.

(** A value with at most [n] decimals is left unchanged by [round(x, n)]. *)
Lemma py_round_exact (x : R) (n : nat) (z : Z) : x * 10 ^ n = IZR z -> py_round x n = x.
Proof.
  intros H. rewrite (py_round_near x n z) by lra.
  rewrite <- H. field. apply pow_nonzero. lra.
Qed.

(** * Lemmas about the similarity engine *)

Lemma dot_comm (a b : list R) : dot a b = dot b a.
Proof.
  revert b; induction a as [| x a IH]; intros [| y b]; simpl; try reflexivity.
  rewrite IH. ring.
Qed.

Lemma dot_self_nonneg (a : list R) : 0 <= dot a a.
Proof.
  induction a as [| x a IH]; simpl; [lra |].
  pose proof (Rle_0_sqr x). unfold Rsqr in *. lra.
Qed.

Lemma norm_nonneg (a : list R) : 0 <= norm a.
Proof. apply sqrt_pos. Qed.

Lemma norm_mul_self (a : list R) : norm a * norm a = dot a a.
Proof. apply sqrt_sqrt, dot_self_nonneg. Qed.

Lemma cosine_similarity_length_mismatch (a b : list R) :
  List.length a <> List.length b -> cosine_similarity a b = Err (ValueError "shapes not aligned").
Proof.
  intros H. unfold cosine_similarity.
  destruct (Nat.eqb_spec (List.length a) (List.length b)); [contradiction | reflexivity].
Qed.

Lemma cosine_similarity_same_length (a b : list R) :
  List.length a = List.length b ->
  cosine_similarity a b =
    Ok (if Req_dec_T (norm a) 0 then 0
        else if Req_dec_T (norm b) 0 then 0 else dot a b / (norm a * norm b)).
Proof.
  intros H. unfold cosine_similarity. rewrite H, Nat.eqb_refl. simpl.
  destruct (Req_dec_T (norm a) 0); [reflexivity |].
  destruct (Req_dec_T (norm b) 0); reflexivity.
Qed.

(** ** C3 *)

(** C3: for equal-length vectors [cosine_similarity] returns exactly [0.0]
    when either norm is zero and [dot(a,b) / (norm(a) * norm(b))] otherwise;
    it is symmetric, and [cosine_similarity x x] is [1] for every [x] with a
    non-zero norm. *)
Theorem cosine_similarity_spec (a b : list R) (Hlen : List.length a = List.length b) :
  ((norm a = 0 \/ norm b = 0) -> cosine_similarity a b = Ok 0) /\
  (norm a <> 0 -> norm b <> 0 -> cosine_similarity a b = Ok (dot a b / (norm a * norm b))) /\
  cosine_similarity a b = cosine_similarity b a /\
  (norm a <> 0 -> cosine_similarity a a = Ok 1).
Proof.
  rewrite (cosine_similarity_same_length a b Hlen).
  rewrite (cosine_similarity_same_length b a (eq_sym Hlen)).
  rewrite (cosine_similarity_same_length a a eq_refl).
  repeat split.
  - intros [Ha | Hb].
    + destruct (Req_dec_T (norm a) 0); [reflexivity | contradiction].
    + destruct (Req_dec_T (norm a) 0); [reflexivity |].
      destruct (Req_dec_T (norm b) 0); [reflexivity | contradiction].
  - intros Ha Hb.
    destruct (Req_dec_T (norm a) 0); [contradiction |].
    destruct (Req_dec_T (norm b) 0); [contradiction | reflexivity].
  - destruct (Req_dec_T (norm a) 0), (Req_dec_T (norm b) 0); try reflexivity.
    rewrite dot_comm, Rmult_comm. reflexivity.
  - intros Ha. destruct (Req_dec_T (norm a) 0); [contradiction |].
    f_equal. rewrite norm_mul_self.
    field. rewrite <- norm_mul_self. intros H0. apply n. nra.
Qed.

Lemma cosine_similarity_spec_witness :
  List.length [3; 4] = List.length [1; 0] /\
  cosine_similarity [3; 4] [1; 0] = cosine_similarity [1; 0] [3; 4].
Proof.
  split; [reflexivity |].
  exact (proj1 (proj2 (proj2 (cosine_similarity_spec [3; 4] [1; 0] eq_refl)))).
Defined.

(** * Quality assessment at a tilted, blurred face (C1)

    A detection with confidence 0.5, pose (yaw 90, pitch 90, roll 180), a
    20x20 box and a uniform crop (Laplacian variance 0, so blur 1). *)

Definition tilted_face : face :=
  {| face_bbox := {| x1 := 0; y1 := 0; x2 := 20; y2 := 20 |};
     det_score := 0.5; pose := Some (90, 90, 180); face_embedding := [1; 0] |}.

Definition uniform_image : image :=
  {| blur_crop := fun _ => BlurGray 0 0; live_crop := fun _ => LiveEmpty |}.

(** C1: the composite score is not confined to [0,1]: the pose penalty
    [(|yaw| + |pitch| + |roll|) / 180] is not clamped, and at the face above
    the reported quality score is -0.098. *)
Theorem quality_score_below_zero :
  score (assess_face_quality default_config uniform_image tilted_face) = -0.098 /\
  score (assess_face_quality default_config uniform_image tilted_face) < 0.
Proof.
  assert (Hq : quality_score default_config uniform_image tilted_face = -0.098).
  { unfold quality_score, tilted_face, uniform_image, calculate_blur, pose_angles; simpl.
    replace ((20 - 0) * (20 - 0)) with (IZR 400) by (simpl; lra).
    rewrite py_int_IZR.
    rewrite (Rabs_pos_eq 90), (Rabs_pos_eq 180) by lra.
    rewrite (Rmin_left (0 / 500)) by lra.
    rewrite (Rmin_left (IZR 400 / (200 * 200))) by lra.
    lra. }
  assert (Hs : score (assess_face_quality default_config uniform_image tilted_face) = -0.098).
  { unfold assess_face_quality. simpl. rewrite Hq.
    apply (py_round_exact _ _ (-98)). simpl. lra. }
  rewrite Hs. split; [reflexivity | lra].
Qed.

(** * Liveness at a warm, textured crop (C5, C9)

    The 20x20 window at the spectrum centre holds the large DC component, so
    its mean magnitude (1000) exceeds the mean over the whole spectrum (200),
    as it does for a natural photograph. *)

Definition warm_stats : live_stats :=
  {| low_freq := 1000; spectrum_mean := 200;
     channels := Some ((150, 100, 80), (60, 50, 40)); texture_grad := 25 |}.

Definition warm_image : image :=
  {| blur_crop := fun _ => BlurGray 500 30; live_crop := fun _ => LiveRegion warm_stats |}.

Definition upright_face : face :=
  {| face_bbox := {| x1 := 0; y1 := 0; x2 := 80; y2 := 100 |};
     det_score := 0.9; pose := None; face_embedding := [1; 0] |}.

Lemma int_box_IZR (a b c d : Z) :
  int_box {| x1 := IZR a; y1 := IZR b; x2 := IZR c; y2 := IZR d |} = (a, b, c, d).
Proof. unfold int_box; simpl. rewrite !py_int_IZR. reflexivity. Qed.

(** C5: the combined liveness confidence is not confined to [0,1]: the
    high-frequency part [mean - low] is negative when the low-frequency
    window dominates, the screen-pattern score becomes 1.4, and the reported
    confidence is 1.075 (with [is_live] true). *)
Theorem liveness_confidence_above_one :
  exists c,
    check_liveness upright_face warm_image = (true, 1.075, c) /\
    checks_get c "screen_pattern" 0 = 1.4 /\ 1 < 1.075.
Proof.
  unfold check_liveness, upright_face.
  cbn [face_bbox]. rewrite int_box_IZR. simpl live_crop. cbv iota beta.
  unfold warm_stats; simpl low_freq; simpl spectrum_mean; simpl channels; simpl texture_grad.
  assert (Hscreen : py_round (1 - Rmin ((200 - 1000) / (1000 + 1e-6) / 2) 1) 3 = 1.4).
  { rewrite Rmin_left.
    - rewrite (py_round_near _ 3 1400); [simpl; lra |].
      simpl. split.
      + apply (Rmult_lt_reg_r (1000 + 1e-6)); [lra |].
        field_simplify; lra.
      + apply (Rmult_lt_reg_r (1000 + 1e-6)); [lra |].
        field_simplify; lra.
    - apply (Rmult_le_reg_r (1000 + 1e-6)); [lra |]. field_simplify; lra. }
  assert (Hcolor : py_round ((if Rltb 100 150 && Rltb 80 100 then 1 else 0.6) * 0.5
                             + Rmin ((60 + 50 + 40) / 150) 1 * 0.5) 3 = 1).
  { unfold Rltb. destruct (Rlt_dec 100 150); [| lra]. destruct (Rlt_dec 80 100); [| lra].
    simpl. rewrite Rmin_left by lra. rewrite (py_round_exact _ 3 1000) by (simpl; lra). lra. }
  assert (Hprop : (if Rltb 0.6 (IZR (80 - 0) / (IZR (100 - 0) + 1e-6)) &&
                      Rltb (IZR (80 - 0) / (IZR (100 - 0) + 1e-6)) 0.9 then 1 else 0.5) = 1).
  { simpl. unfold Rltb.
    destruct (Rlt_dec 0.6 (80 / (100 + 1e-6))) as [| H]; [| exfalso; apply H;
      apply (Rmult_lt_reg_r (100 + 1e-6)); [lra |]; field_simplify; lra].
    destruct (Rlt_dec (80 / (100 + 1e-6)) 0.9) as [| H]; [reflexivity | exfalso; apply H;
      apply (Rmult_lt_reg_r (100 + 1e-6)); [lra |]; field_simplify; lra]. }
  rewrite Hscreen, Hcolor, Hprop.
  cbn [det_score].
  rewrite (py_round_exact 1 3 1000) by (simpl; lra).
  rewrite (py_round_exact 0.9 3 900) by (simpl; lra).
  rewrite (Rmin_left (25 / 25) 1) by lra.
  rewrite (py_round_exact (25 / 25) 3 1000) by (simpl; lra).
  assert (Hconf : combined_confidence
    [("screen_pattern", CNum 1.4); ("color_distribution", CNum 1);
     ("face_proportion", CNum 1); ("detection_confidence", CNum 0.9);
     ("texture_complexity", CNum (25 / 25))] = 1.075).
  { unfold combined_confidence, liveness_weights, checks_get. simpl. lra. }
  rewrite Hconf.
  rewrite (py_round_exact 1.075 3 1075) by (simpl; lra).
  unfold Rltb. destruct (Rlt_dec 0.55 1.075); [| lra].
  eexists. split; [reflexivity |]. split; [unfold checks_get; reflexivity | lra].
Qed.

Lemma face_proportion_check (f : face) (img : image) (st : live_stats) (a b c d : Z) :
  int_box (face_bbox f) = (a, b, c, d) ->
  live_crop img (a, b, c, d) = LiveRegion st ->
  checks_get (snd (check_liveness f img)) "face_proportion" 0 =
  py_round (if Rltb 0.6 (IZR (c - a) / (IZR (d - b) + 1e-6)) &&
               Rltb (IZR (c - a) / (IZR (d - b) + 1e-6)) 0.9 then 1 else 0.5) 3.
Proof.
  intros Hbox Hcrop. unfold check_liveness. rewrite Hbox, Hcrop. reflexivity.
Qed.

Lemma py_round_one_3 : py_round 1 3 = 1.
Proof. apply (py_round_exact _ _ 1000). simpl. lra. Qed.

Lemma py_round_half_3 : py_round 0.5 3 = 0.5.
Proof. apply (py_round_exact _ _ 500). simpl. lra. Qed.

(** A 6x10 box: width/height is exactly 0.6. *)
Definition narrow_face : face :=
  {| face_bbox := {| x1 := 0; y1 := 0; x2 := 6; y2 := 10 |};
     det_score := 0.9; pose := None; face_embedding := [1; 0] |}.

(** C9 (counterexample): a box whose width/height is exactly 0.6, an end
    point of [0.6, 0.9], gets the partial credit 0.5. *)
Lemma face_proportion_endpoint_partial :
  checks_get (snd (check_liveness narrow_face warm_image)) "face_proportion" 0 = 0.5 /\
  0.6 <= 6 / 10 <= 0.9.
Proof.
  rewrite (face_proportion_check narrow_face warm_image warm_stats 0 0 6 10)
    by (try exact (int_box_IZR 0 0 6 10); reflexivity).
  split; [| lra].
  simpl. unfold Rltb.
  destruct (Rlt_dec 0.6 (6 / (10 + 1e-6))) as [H |].
  - exfalso. apply (Rmult_lt_compat_r (10 + 1e-6)) in H; [| lra].
    field_simplify in H; lra.
  - apply py_round_half_3.
Qed.

(** C9: for a non-degenerate crop, the face-proportion sub-score is 1.0 or
    0.5, and it is 1.0 exactly when the aspect ratio
    [width / (height + 1e-6)] of the integer box lies strictly between 0.6
    and 0.9 (both end points excluded). *)
Theorem face_proportion_score_spec (f : face) (img : image) (st : live_stats) (a b c d : Z)
  (Hbox : int_box (face_bbox f) = (a, b, c, d))
  (Hcrop : live_crop img (a, b, c, d) = LiveRegion st) :
  let v := checks_get (snd (check_liveness f img)) "face_proportion" 0 in
  let aspect_ratio := IZR (c - a) / (IZR (d - b) + 1e-6) in
  (v = 1 \/ v = 0.5) /\ (v = 1 <-> 0.6 < aspect_ratio /\ aspect_ratio < 0.9).
Proof.
  cbv zeta. rewrite (face_proportion_check f img st a b c d Hbox Hcrop).
  unfold Rltb.
  destruct (Rlt_dec 0.6 (IZR (c - a) / (IZR (d - b) + 1e-6)));
  destruct (Rlt_dec (IZR (c - a) / (IZR (d - b) + 1e-6)) 0.9); simpl;
  rewrite ?py_round_one_3, ?py_round_half_3; split; try tauto; split; intros; lra.
Qed.

Lemma face_proportion_score_spec_witness :
  int_box (face_bbox upright_face) = (0%Z, 0%Z, 80%Z, 100%Z) /\
  live_crop warm_image (0%Z, 0%Z, 80%Z, 100%Z) = LiveRegion warm_stats /\
  (checks_get (snd (check_liveness upright_face warm_image)) "face_proportion" 0 = 1 \/
   checks_get (snd (check_liveness upright_face warm_image)) "face_proportion" 0 = 0.5).
Proof.
  split; [exact (int_box_IZR 0 0 80 100) |]. split; [reflexivity |].
  exact (proj1 (face_proportion_score_spec upright_face warm_image warm_stats 0 0 80 100
                  (int_box_IZR 0 0 80 100) eq_refl)).
Defined.

(** * Detection, embedding extraction and the gallery *)

Lemma insert_desc_not_nil {A} (key : A -> R) (x : A) (l : list A) : insert_desc key x l <> [].
Proof. destruct l; simpl; [discriminate |]. destruct (Rle_dec _ _); discriminate. Qed.

Lemma get_best_face_nonempty (cfg : config) (img : image) (faces : list face) :
  faces <> [] -> exists f, get_best_face cfg img faces = Some f.
Proof.
  intros Hne. destruct faces as [| f0 [| f1 rest]]; [contradiction | eexists; reflexivity |].
  unfold get_best_face.
  set (l := map _ (f0 :: f1 :: rest)). simpl in l.
  subst l. cbn [sort_desc].
  destruct (insert_desc _ _ _) as [| [f s] tl] eqn:E.
  - exfalso. eapply insert_desc_not_nil. exact E.
  - eexists; reflexivity.
Qed.

Lemma get_embedding_nonempty (cfg : config) (img : image) (faces : list face) (rq : bool) :
  faces <> [] ->
  exists f, get_best_face cfg img faces = Some f /\
    get_embedding cfg img faces rq =
      Ok (face_embedding f, det_score f, List.length faces,
          if rq then Some (assess_face_quality cfg img f) else None).
Proof.
  intros Hne. destruct (get_best_face_nonempty cfg img faces Hne) as [f Hf].
  exists f. split; [exact Hf |].
  unfold get_embedding. rewrite Hf. destruct faces; [contradiction | reflexivity].
Qed.

Lemma load_save (now user_id : string) (embedding : list R) (name : option string)
    (metadata : option (list (string * string))) (g : gallery) :
  load_from_gallery user_id (save_to_gallery now user_id embedding name metadata g) =
  Some {| rec_embedding := embedding; rec_name := name;
          rec_metadata := match metadata with Some m => m | None => [] end;
          rec_enrolled_at := now |}.
Proof.
  unfold load_from_gallery, save_to_gallery.
  induction g as [| [k v] g IH]; simpl.
  - rewrite String.eqb_refl. reflexivity.
  - destruct (String.eqb user_id k) eqn:E; simpl.
    + rewrite String.eqb_refl. reflexivity.
    + rewrite E. exact IH.
Qed.

Lemma enroll_success_saves (cfg : config) (now : string) (g g' : gallery) (user_id : string)
    (name : option string) (metadata : option (list (string * string)))
    (img : image) (faces : list face) (resp : EnrollResponse)
    (E : list R) (s : R) (n : nat) (q : option FaceQuality) :
  enroll cfg now g user_id name metadata img faces = Ok (resp, g') ->
  en_success resp = true ->
  get_embedding cfg img faces true = Ok (E, s, n, q) ->
  g' = save_to_gallery now user_id E name metadata g.
Proof.
  intros Henr Hs Hemb. unfold enroll in Henr. rewrite Hemb in Henr.
  destruct q as [q |].
  - destruct (Rltb (score q) (QUALITY_THRESHOLD cfg)); inversion Henr; subst.
    + discriminate.
    + reflexivity.
  - inversion Henr; reflexivity.
Qed.

Lemma py_round_one_4 : py_round 1 4 = 1.
Proof. apply (py_round_exact _ _ 10000). simpl. lra. Qed.

(** ** C7 *)

Definition short_face : face :=
  {| face_bbox := {| x1 := 0; y1 := 0; x2 := 80; y2 := 100 |};
     det_score := 0.9; pose := None; face_embedding := [1] |}.

(** C7 (counterexample): comparing a 1-element and a 2-element embedding
    fails with numpy's ValueError, which is not a ValidationError. *)
Lemma compare_length_mismatch_value_error :
  compare default_config warm_image [short_face] warm_image [upright_face] =
    Err (ValueError "shapes not aligned") /\
  is_validation_error (ValueError "shapes not aligned") = false.
Proof.
  split; [| reflexivity].
  unfold compare. cbn [get_embedding get_best_face bind].
  rewrite cosine_similarity_length_mismatch by (simpl; discriminate).
  reflexivity.
Qed.

(** C7: comparing embeddings of different lengths fails with numpy's
    ValueError (uncaught, so not a ValidationError): [cosine_similarity]
    raises it, and [compare] and [verify] pass it on to the caller. *)
Theorem length_mismatch_value_error (a b : list R)
  (Hlen : List.length a <> List.length b) :
  cosine_similarity a b = Err (ValueError "shapes not aligned") /\
  is_validation_error (ValueError "shapes not aligned") = false /\
  (forall cfg img1 faces1 img2 faces2 s1 n1 q1 s2 n2 q2,
     get_embedding cfg img1 faces1 true = Ok (a, s1, n1, q1) ->
     get_embedding cfg img2 faces2 true = Ok (b, s2, n2, q2) ->
     compare cfg img1 faces1 img2 faces2 = Err (ValueError "shapes not aligned")) /\
  (forall cfg g user_id stored img faces s n q,
     load_from_gallery user_id g = Some stored ->
     rec_embedding stored = b ->
     get_embedding cfg img faces true = Ok (a, s, n, q) ->
     verify cfg g user_id img faces = Err (ValueError "shapes not aligned")).
Proof.
  pose proof (cosine_similarity_length_mismatch a b Hlen) as Hc.
  split; [exact Hc |]. split; [reflexivity |]. split.
  - intros cfg img1 faces1 img2 faces2 s1 n1 q1 s2 n2 q2 H1 H2.
    unfold compare. rewrite H1. simpl. rewrite H2. simpl. rewrite Hc. reflexivity.
  - intros cfg g user_id stored img faces s n q Hload Hemb H1.
    unfold verify. rewrite Hload, H1. simpl. rewrite Hemb, Hc. reflexivity.
Qed.

Lemma length_mismatch_value_error_witness :
  List.length [1] <> List.length [1; 0] /\
  cosine_similarity [1] [1; 0] = Err (ValueError "shapes not aligned").
Proof.
  split; [simpl; discriminate |].
  exact (proj1 (length_mismatch_value_error [1] [1; 0] ltac:(simpl; discriminate))).
Defined.

(** ** C4 *)

(** C4 (counterexample): enrolling from an image with no detected face is
    not a failure: [enroll] catches the HTTPException and answers with an
    unsuccessful response, leaving the gallery unchanged. *)
Lemma enroll_no_face_not_error :
  exists resp,
    enroll default_config "t" [] "u1" None None uniform_image [] = Ok (resp, []) /\
    en_success resp = false.
Proof. eexists. split; reflexivity. Qed.

(** C4: with no face detected, [embed], [compare] (either image, or both), [search],
    [identify] and [liveness] fail with a ValidationError (status 400), and
    so does [verify] for an enrolled identity (an unknown one fails first
    with a NotFoundError); [enroll] instead answers with an unsuccessful
    response carrying the message "No face detected in image" and leaves the
    gallery unchanged; [batch_embed] records the error for that item only. *)
Theorem no_face_outcomes (cfg : config) (now : string) (g : gallery) (img img' : image)
  (faces' : list face) (user_id : string) (name : option string)
  (metadata : option (list (string * string))) (top_k : nat) (threshold : option R)
  (pre post : list (string * image * list face)) (url : string) :
  is_validation_error no_face_error = true /\
  embed cfg img [] = Err no_face_error /\
  compare cfg img [] img' faces' = Err no_face_error /\
  compare cfg img' faces' img [] = Err no_face_error /\
  compare cfg img [] img' [] = Err no_face_error /\
  (forall stored, load_from_gallery user_id g = Some stored ->
     verify cfg g user_id img [] = Err no_face_error) /\
  (load_from_gallery user_id g = None ->
     verify cfg g user_id img [] = Err (HTTPException 404 ("User " ++ user_id ++ " not enrolled"))) /\
  search cfg g img [] top_k threshold = Err no_face_error /\
  identify cfg g img [] top_k = Err no_face_error /\
  liveness cfg img [] = Err (HTTPException 400 "No face detected") /\
  enroll cfg now g user_id name metadata img [] =
    Ok ({| en_user_id := user_id; en_success := false; en_quality := None;
           en_message := "No face detected in image" |}, g) /\
  batch_embed cfg (pre ++ (url, img, []) :: post)%list =
    (batch_embed cfg pre ++
     {| be_image_url := url; be_success := false; be_embedding := None;
        be_score := None; be_error := Some no_face_error |} :: batch_embed cfg post)%list.
Proof.
  repeat split; try reflexivity.
  - destruct faces' as [| f0 fs]; [reflexivity |].
    destruct (get_embedding_nonempty cfg img' (f0 :: fs) true ltac:(discriminate)) as [f [_ Hf]].
    unfold compare. rewrite Hf. reflexivity.
  - intros stored H. unfold verify. rewrite H. reflexivity.
  - intros H. unfold verify. rewrite H. reflexivity.
  - unfold batch_embed. rewrite map_app. reflexivity.
Qed.

Lemma no_face_outcomes_witness :
  compare default_config warm_image [upright_face] uniform_image [] = Err no_face_error /\
  compare default_config uniform_image [] warm_image [] = Err no_face_error.
Proof.
  destruct (no_face_outcomes default_config "t" [] uniform_image warm_image
    [upright_face] "u1" None None 1 None [] [] "url") as (_ & _ & _ & H1 & H2 & _).
  split; [exact H1 | exact H2].
Defined.

(** ** C6 *)

(** A sharp, frontal 200x200 detection with confidence 1: quality 1. *)
Definition frontal_face (E : list R) : face :=
  {| face_bbox := {| x1 := 0; y1 := 0; x2 := 200; y2 := 200 |};
     det_score := 1; pose := None; face_embedding := E |}.

Lemma frontal_face_score (E : list R) :
  score (assess_face_quality default_config warm_image (frontal_face E)) = 1.
Proof.
  unfold assess_face_quality, quality_score, calculate_blur, pose_angles. simpl.
  replace ((200 - 0) * (200 - 0)) with (IZR 40000) by (simpl; lra).
  rewrite py_int_IZR.
  rewrite (Rmin_left (500 / 500)) by lra.
  rewrite (Rmin_left (IZR 40000 / (200 * 200))) by lra.
  rewrite Rabs_R0.
  replace (1 * 0.3 + (1 - (0 + 0 + 0) / 180) * 0.25 + (1 - (1 - 500 / 500)) * 0.25 +
           IZR 40000 / (200 * 200) * 0.2) with 1 by lra.
  apply py_round_one_3.
Qed.

Lemma enroll_frontal (now : string) (g : gallery) (user_id : string) (E : list R) :
  exists resp,
    enroll default_config now g user_id None None warm_image [frontal_face E] =
      Ok (resp, save_to_gallery now user_id E None None g) /\
    en_success resp = true.
Proof.
  unfold enroll. cbn [get_embedding get_best_face].
  rewrite frontal_face_score. unfold Rltb. simpl QUALITY_THRESHOLD.
  destruct (Rlt_dec 1 0.3); [lra |].
  eexists. split; reflexivity.
Qed.

(** C6 (counterexample): an all-zero embedding enrolls successfully, but
    verifying it against itself gives similarity 0 and [verified = false]. *)
Lemma enroll_verify_zero_embedding :
  exists resp g' r,
    enroll default_config "t" [] "u1" None None warm_image [frontal_face [0; 0]] = Ok (resp, g') /\
    en_success resp = true /\
    verify default_config g' "u1" warm_image [frontal_face [0; 0]] = Ok r /\
    vr_similarity r = 0 /\ vr_verified r = false.
Proof.
  destruct (enroll_frontal "t" [] "u1" [0; 0]) as [resp [He Hs]].
  assert (Hn : norm [0; 0] = 0).
  { unfold norm. simpl. replace (0 * 0 + (0 * 0 + 0)) with 0 by ring. apply sqrt_0. }
  assert (Hc : cosine_similarity [0; 0] [0; 0] = Ok 0).
  { rewrite cosine_similarity_same_length by reflexivity.
    destruct (Req_dec_T (norm [0; 0]) 0); [reflexivity | contradiction]. }
  exists resp, (save_to_gallery "t" "u1" [0; 0] None None []).
  unfold verify. rewrite load_save. cbn [get_embedding get_best_face bind rec_embedding face_embedding frontal_face].
  rewrite Hc. simpl bind.
  eexists. split; [exact He |]. split; [exact Hs |]. split; [reflexivity |]. simpl.
  split.
  - apply (py_round_exact _ _ 0). simpl. lra.
  - unfold Rleb. destruct (Rle_dec 0.45 0); [lra | reflexivity].
Qed.

(** C6: after a successful enrolment of [user_id] from an image whose
    extracted embedding is [E], verifying [user_id] against an image whose
    extracted embedding is also [E] reports similarity 1 and
    [verified = true], provided the norm of [E] lies in [[1e-100, 1e100]]
    and the configured match threshold is at most 0.9999.  The exact cosine
    of [E] with itself is 1; the float64 computation of the source is within
    rounding error of it when the norm is far from the underflow and
    overflow range (it may be 0.9999999999999998), which the margin below 1
    on the threshold absorbs, and its value rounded to 4 decimals is 1.0. *)
Theorem enroll_verify_roundtrip (cfg : config) (now : string) (g g' : gallery)
  (user_id : string) (name : option string) (metadata : option (list (string * string)))
  (img1 img2 : image) (faces1 faces2 : list face) (resp : EnrollResponse) (E : list R)
  (s1 s2 : R) (n1 n2 : nat) (q1 q2 : option FaceQuality)
  (Henroll : enroll cfg now g user_id name metadata img1 faces1 = Ok (resp, g'))
  (Hsuccess : en_success resp = true)
  (Hemb1 : get_embedding cfg img1 faces1 true = Ok (E, s1, n1, q1))
  (Hemb2 : get_embedding cfg img2 faces2 true = Ok (E, s2, n2, q2))
  (Hnorm : / 10 ^ 100 <= norm E <= 10 ^ 100)
  (Hth : MATCH_THRESHOLD cfg <= 0.9999) :
  exists r, verify cfg g' user_id img2 faces2 = Ok r /\
            vr_similarity r = 1 /\ vr_verified r = true.
Proof.
  rewrite (enroll_success_saves cfg now g g' user_id name metadata img1 faces1 resp
             E s1 n1 q1 Henroll Hsuccess Hemb1).
  assert (Hnz : norm E <> 0).
  { assert (Hp : 0 < / 10 ^ 100) by (apply Rinv_0_lt_compat, pow_lt; lra). lra. }
  assert (Hc : cosine_similarity E E = Ok 1).
  { rewrite cosine_similarity_same_length by reflexivity.
    destruct (Req_dec_T (norm E) 0); [contradiction |].
    f_equal. rewrite norm_mul_self. field.
    rewrite <- norm_mul_self. intros H0. apply Hnz. nra. }
  unfold verify. rewrite load_save, Hemb2. simpl bind. rewrite Hc. simpl bind.
  eexists. split; [reflexivity |]. simpl. split.
  - apply py_round_one_4.
  - unfold Rleb. destruct (Rle_dec (MATCH_THRESHOLD cfg) 1); [reflexivity | lra].
Qed.

(** * Ranking: the stable descending sort *)

Section StableSort.
Context {A : Type} (key : A -> R).

Definition desc (a b : A) : Prop := key b <= key a.

Definition key_is (v : R) (a : A) : bool := if Req_dec_T (key a) v then true else false.

Lemma insert_desc_perm (x : A) (l : list A) : Permutation (insert_desc key x l) (x :: l).
Proof.
  induction l as [| y l IH]; simpl; [reflexivity |].
  destruct (Rle_dec (key y) (key x)); [reflexivity |].
  rewrite IH. apply perm_swap.
Qed.

Lemma sort_desc_perm (l : list A) : Permutation (sort_desc key l) l.
Proof.
  induction l as [| x l IH]; simpl; [reflexivity |].
  rewrite insert_desc_perm. apply perm_skip, IH.
Qed.

Lemma insert_desc_hd (x y : A) (l : list A) :
  key x < key y -> HdRel desc y l -> HdRel desc y (insert_desc key x l).
Proof.
  intros Hxy Hhd. destruct l as [| z l]; simpl.
  - constructor. unfold desc. lra.
  - destruct (Rle_dec (key z) (key x)).
    + constructor. unfold desc. lra.
    + inversion Hhd; subst. constructor. assumption.
Qed.

Lemma insert_desc_sorted (x : A) (l : list A) :
  Sorted desc l -> Sorted desc (insert_desc key x l).
Proof.
  induction l as [| y l IH]; intros Hs; simpl.
  - repeat constructor.
  - destruct (Rle_dec (key y) (key x)) as [Hle | Hnle].
    + constructor; [exact Hs | constructor; exact Hle].
    + inversion Hs; subst. constructor.
      * apply IH. assumption.
      * apply insert_desc_hd; [lra | assumption].
Qed.

Lemma sort_desc_sorted (l : list A) : Sorted desc (sort_desc key l).
Proof.
  induction l as [| x l IH]; simpl; [constructor |].
  apply insert_desc_sorted, IH.
Qed.

Lemma insert_desc_filter_in (v : R) (x : A) (l : list A) :
  key x = v -> filter (key_is v) (insert_desc key x l) = x :: filter (key_is v) l.
Proof.
  intros Hx. unfold key_is.
  induction l as [| y l IH]; simpl.
  - destruct (Req_dec_T (key x) v); [reflexivity | contradiction].
  - destruct (Rle_dec (key y) (key x)) as [Hle | Hnle]; simpl.
    + destruct (Req_dec_T (key x) v); [reflexivity | contradiction].
    + destruct (Req_dec_T (key y) v); [lra |]. exact IH.
Qed.

Lemma insert_desc_filter_out (v : R) (x : A) (l : list A) :
  key x <> v -> filter (key_is v) (insert_desc key x l) = filter (key_is v) l.
Proof.
  intros Hx. unfold key_is.
  induction l as [| y l IH]; simpl.
  - destruct (Req_dec_T (key x) v); [contradiction | reflexivity].
  - destruct (Rle_dec (key y) (key x)); simpl.
    + destruct (Req_dec_T (key x) v); [contradiction | reflexivity].
    + destruct (Req_dec_T (key y) v); [f_equal |]; exact IH.
Qed.

(** Stability: the elements with any given key keep their original order. *)
Lemma sort_desc_stable (v : R) (l : list A) :
  filter (key_is v) (sort_desc key l) = filter (key_is v) l.
Proof.
  induction l as [| x l IH]; simpl; [reflexivity |].
  destruct (Req_dec_T (key x) v) as [Hx | Hx].
  - rewrite insert_desc_filter_in by exact Hx. rewrite IH.
    unfold key_is at 2. destruct (Req_dec_T (key x) v); [reflexivity | contradiction].
  - rewrite insert_desc_filter_out by exact Hx. rewrite IH.
    unfold key_is at 2. destruct (Req_dec_T (key x) v); [contradiction | reflexivity].
Qed.

(** [ranked] is [l] sorted by descending key, ties in their order in [l]. *)
Definition stable_desc_of (ranked l : list A) : Prop :=
  Permutation ranked l /\ Sorted desc ranked /\
  forall v, filter (key_is v) ranked = filter (key_is v) l.

Lemma sort_desc_stable_desc_of (l : list A) : stable_desc_of (sort_desc key l) l.
Proof.
  split; [apply sort_desc_perm |]. split; [apply sort_desc_sorted |].
  intros v. apply sort_desc_stable.
Qed.

End StableSort.

(** * Search and identify *)

(** The similarity of two embeddings of equal length. *)
Definition similarity_value (a b : list R) : R :=
  match cosine_similarity a b with
  | Ok s => s
  | Err _ => 0
  end.

(** The gallery entries whose similarity reaches [threshold], in gallery
    order, each with its similarity rounded to 4 decimals. *)
Definition eligible_matches (embedding : list R) (threshold : R) (gal : gallery)
  : list SearchMatch :=
  map (fun ud => {| sm_user_id := fst ud;
                    sm_similarity := py_round (similarity_value embedding (rec_embedding (snd ud))) 4;
                    sm_name := rec_name (snd ud) |})
      (filter (fun ud => Rleb threshold (similarity_value embedding (rec_embedding (snd ud)))) gal).

Definition same_length_gallery (embedding : list R) (gal : gallery) : Prop :=
  forall u d, In (u, d) gal -> List.length (rec_embedding d) = List.length embedding.

Lemma collect_matches_eligible (embedding : list R) (threshold : R) (gal : gallery) :
  same_length_gallery embedding gal ->
  collect_matches embedding threshold gal = Ok (eligible_matches embedding threshold gal).
Proof.
  unfold same_length_gallery, eligible_matches.
  induction gal as [| [u d] gal IH]; intros Hlen; simpl; [reflexivity |].
  assert (Hc : cosine_similarity embedding (rec_embedding d) =
               Ok (similarity_value embedding (rec_embedding d))).
  { unfold similarity_value.
    rewrite cosine_similarity_same_length by (symmetry; apply (Hlen u d); left; reflexivity).
    reflexivity. }
  rewrite Hc. simpl bind. rewrite IH by (intros u' d' H; apply (Hlen u' d'); right; exact H).
  simpl bind. unfold Rleb.
  destruct (Rle_dec threshold (similarity_value embedding (rec_embedding d))); reflexivity.
Qed.

Lemma collect_matches_sound (embedding : list R) (threshold : R) (gal : gallery)
    (ms : list SearchMatch) :
  collect_matches embedding threshold gal = Ok ms ->
  forall m, In m ms -> exists u d s,
    In (u, d) gal /\ cosine_similarity embedding (rec_embedding d) = Ok s /\
    threshold <= s /\ m = {| sm_user_id := u; sm_similarity := py_round s 4; sm_name := rec_name d |}.
Proof.
  revert ms. induction gal as [| [u d] gal IH]; intros ms H m Hm; simpl in H.
  - inversion H; subst. destruct Hm.
  - destruct (cosine_similarity embedding (rec_embedding d)) as [s |] eqn:Hc; [| discriminate].
    simpl in H. destruct (collect_matches embedding threshold gal) as [rest |] eqn:Hr;
      [| discriminate].
    simpl in H. inversion H; subst ms. clear H.
    destruct (Rle_dec threshold s) as [Hle | Hnle].
    + destruct Hm as [Hm | Hm].
      * exists u, d, s. subst m. repeat split; auto. left; reflexivity.
      * destruct (IH rest eq_refl m Hm) as (u' & d' & s' & Hin & Hc' & Hle' & Heq).
        exists u', d', s'. repeat split; auto. right; exact Hin.
    + destruct (IH rest eq_refl m Hm) as (u' & d' & s' & Hin & Hc' & Hle' & Heq).
      exists u', d', s'. repeat split; auto. right; exact Hin.
Qed.

Lemma firstn_nil_any {A} (n : nat) : firstn n (@nil A) = [].
Proof. destruct n; reflexivity. Qed.

(** ** C2 *)

(** C2: [search] keeps exactly the gallery entries whose similarity to the
    probe reaches the threshold (the caller's override if given, else the
    configured match threshold) and [identify] those reaching 0.8 times the
    configured threshold; each kept entry carries its similarity rounded to
    4 decimals, the list is sorted by that rounded value in descending
    order, entries with equal rounded values stay in gallery order, and the
    first [top_k] are returned. *)
Theorem search_stable_ranking (cfg : config) (g : gallery) (img : image) (faces : list face)
  (top_k : nat) (threshold : option R) (embedding : list R) (s : R) (n : nat)
  (q : option FaceQuality)
  (Hemb : get_embedding cfg img faces true = Ok (embedding, s, n, q))
  (Hlen : same_length_gallery embedding g) :
  (exists ranked,
     search cfg g img faces top_k threshold =
       Ok {| sr_matches := firstn top_k ranked; sr_faces_detected := n; sr_quality := q |} /\
     stable_desc_of sm_similarity ranked
       (eligible_matches embedding
          (match threshold with Some t => t | None => MATCH_THRESHOLD cfg end) g)) /\
  (forall f, get_best_face cfg img faces = Some f -> face_embedding f = embedding ->
     exists r ranked,
       identify cfg g img faces top_k = Ok r /\ id_matches r = firstn top_k ranked /\
       stable_desc_of sm_similarity ranked
         (eligible_matches embedding (MATCH_THRESHOLD cfg * 0.8) g)).
Proof.
  split.
  - unfold search. rewrite Hemb. simpl bind.
    destruct g as [| e g'] eqn:Hg.
    + exists []. split.
      * rewrite firstn_nil_any. reflexivity.
      * apply (sort_desc_stable_desc_of sm_similarity []).
    + unfold get_all_gallery. rewrite <- Hg. rewrite <- Hg in Hlen.
      rewrite collect_matches_eligible by exact Hlen. simpl bind.
      eexists. split; [reflexivity |]. apply sort_desc_stable_desc_of.
  - intros f Hf Hfe. unfold identify.
    destruct faces as [| f0 faces]; [discriminate |].
    rewrite Hf. destruct (check_liveness f img) as [[is_live conf] c].
    destruct g as [| e g'] eqn:Hg.
    + eexists. exists []. split; [reflexivity |]. split.
      * simpl. rewrite firstn_nil_any. reflexivity.
      * apply (sort_desc_stable_desc_of sm_similarity []).
    + unfold get_all_gallery. rewrite <- Hg. rewrite <- Hg in Hlen.
      rewrite Hfe, collect_matches_eligible by exact Hlen. simpl bind.
      eexists. eexists. split; [reflexivity |]. split; [reflexivity |].
      apply sort_desc_stable_desc_of.
Qed.

Definition enrolled (E : list R) : gallery_record :=
  {| rec_embedding := E; rec_name := None; rec_metadata := []; rec_enrolled_at := "t" |}.


(** Similarities against the probe [[1; 0]]. *)

Lemma norm_unit : norm [1; 0] = 1.
Proof. unfold norm. simpl. replace (1 * 1 + (0 * 0 + 0)) with 1 by ring. apply sqrt_1. Qed.

Lemma norm_pythagorean (a b c : R) : 0 <= c -> a * a + b * b = c * c -> norm [a; b] = c.
Proof.
  intros Hc H. unfold norm. simpl. replace (a * a + (b * b + 0)) with (c * c) by lra.
  apply sqrt_square, Hc.
Qed.

Lemma cosine_unit_probe (a b c : R) :
  0 < c -> a * a + b * b = c * c -> cosine_similarity [1; 0] [a; b] = Ok (a / c).
Proof.
  intros Hc H. rewrite cosine_similarity_same_length by reflexivity.
  rewrite norm_unit, (norm_pythagorean a b c) by lra.
  destruct (Req_dec_T 1 0); [lra |]. destruct (Req_dec_T c 0); [lra |].
  f_equal. simpl. field. lra.
Qed.

(** A gallery for the ranking, against the probe [[1; 0]] and threshold
    0.5: "c" (similarity 0.28) is dropped, "b" (0.6) is kept, and "a" and
    "d" tie at 0.8, "a" first in gallery order. *)
Definition rank_gallery : gallery :=
  [("c", enrolled [7; 24]); ("b", enrolled [3; 4]); ("a", enrolled [4; 3]); ("d", enrolled [8; 6])].

Lemma rank_gallery_same_length : same_length_gallery [1; 0] rank_gallery.
Proof.
  intros u d H. simpl in H.
  repeat (destruct H as [H | H]; [inversion H; reflexivity |]). contradiction.
Qed.

Ltac decide_Rle :=
  repeat match goal with
  | |- context [Rle_dec ?x ?y] =>
      let H := fresh in destruct (Rle_dec x y) as [H | H]; [try (exfalso; lra) | try (exfalso; lra)]
  end.

(** The entries are sorted to a, d, b, and the first two are returned. *)
Lemma search_rank_gallery :
  search default_config rank_gallery warm_image [upright_face] 2 (Some 0.5) =
    Ok {| sr_matches := [{| sm_user_id := "a"; sm_similarity := 4 / 5; sm_name := None |};
                         {| sm_user_id := "d"; sm_similarity := 8 / 10; sm_name := None |}];
          sr_faces_detected := 1;
          sr_quality := Some (assess_face_quality default_config warm_image upright_face) |}.
Proof.
  unfold search. cbn [get_embedding get_best_face bind face_embedding upright_face].
  unfold rank_gallery, get_all_gallery. cbn [collect_matches rec_embedding enrolled].
  rewrite (cosine_unit_probe 7 24 25), (cosine_unit_probe 3 4 5), (cosine_unit_probe 4 3 5),
    (cosine_unit_probe 8 6 10) by lra.
  simpl bind.
  rewrite (py_round_exact (3 / 5) 4 6000), (py_round_exact (4 / 5) 4 8000),
    (py_round_exact (8 / 10) 4 8000) by (simpl; lra).
  unfold rank_matches. simpl. decide_Rle.
  cbn [sort_desc].
  do 3 (cbn [insert_desc sm_similarity]; decide_Rle).
  reflexivity.
Qed.

Lemma search_stable_ranking_witness :
  same_length_gallery [1; 0] rank_gallery /\
  exists ranked,
    firstn 2 ranked = [{| sm_user_id := "a"; sm_similarity := 4 / 5; sm_name := None |};
                       {| sm_user_id := "d"; sm_similarity := 8 / 10; sm_name := None |}] /\
    stable_desc_of sm_similarity ranked (eligible_matches [1; 0] 0.5 rank_gallery).
Proof.
  split; [exact rank_gallery_same_length |].
  destruct (proj1 (search_stable_ranking default_config rank_gallery warm_image [upright_face] 2
    (Some 0.5) [1; 0] 0.9 1 (Some (assess_face_quality default_config warm_image upright_face))
    eq_refl rank_gallery_same_length)) as [ranked [H Hs]].
  exists ranked. split; [| exact Hs].
  rewrite search_rank_gallery in H.
  pose proof (f_equal (fun r => match r with Ok x => sr_matches x | Err _ => [] end) H) as E.
  simpl in E. symmetry. exact E.
Defined.

Lemma enroll_verify_roundtrip_witness :
  exists r,
    verify default_config (save_to_gallery "t" "u1" [1; 0] None None []) "u1"
      warm_image [frontal_face [1; 0]] = Ok r /\
    vr_similarity r = 1 /\ vr_verified r = true.
Proof.
  destruct (enroll_frontal "t" [] "u1" [1; 0]) as [resp [He Hs]].
  assert (Hn : / 10 ^ 100 <= norm [1; 0] <= 10 ^ 100).
  { rewrite norm_unit. assert (H1 : 1 <= 10 ^ 100) by (apply pow_R1_Rle; lra).
    split; [| exact H1]. rewrite <- Rinv_1. apply Rinv_le_contravar; lra. }
  assert (Hth : MATCH_THRESHOLD default_config <= 0.9999) by (simpl; lra).
  exact (enroll_verify_roundtrip default_config "t" [] _ "u1" None None warm_image warm_image
           [frontal_face [1; 0]] [frontal_face [1; 0]] resp [1; 0] 1 1 1%nat 1%nat
           (Some (assess_face_quality default_config warm_image (frontal_face [1; 0])))
           (Some (assess_face_quality default_config warm_image (frontal_face [1; 0])))
           He Hs eq_refl eq_refl Hn Hth).
Defined.

Lemma cosine_probe_self : cosine_similarity [1; 0] [1; 0] = Ok 1.
Proof.
  rewrite (cosine_unit_probe 1 0 1) by lra. f_equal. field.
Qed.

(** [89999 / 90001] is within 1/20000 of 1, so it is reported as 1.0. *)
Lemma py_round_near_one : py_round (89999 / 90001) 4 = 1.
Proof.
  rewrite (py_round_near _ 4 10000).
  - simpl. lra.
  - simpl. split; apply (Rmult_lt_reg_r 90001); try lra; field_simplify; lra.
Qed.

(** Gallery order: "b" first, then "a". *)
Definition ab_gallery : gallery :=
  [("b", enrolled [89999; 600]); ("a", enrolled [1; 0])].

(** C2 (counterexample): "a" is identical to the probe (similarity 1) and
    "b" is slightly less similar (89999/90001); both are reported as 1.0,
    so with [top_k = 1] the tie on the rounded value keeps gallery order and
    [search] returns "b" alone, not the most similar entry "a". *)
Lemma search_rounding_tie :
  search default_config ab_gallery warm_image [upright_face] 1 None =
    Ok {| sr_matches := [{| sm_user_id := "b"; sm_similarity := 1; sm_name := None |}];
          sr_faces_detected := 1;
          sr_quality := Some (assess_face_quality default_config warm_image upright_face) |} /\
  cosine_similarity [1; 0] [1; 0] = Ok 1 /\
  cosine_similarity [1; 0] [89999; 600] = Ok (89999 / 90001) /\
  89999 / 90001 < 1.
Proof.
  assert (Hb : cosine_similarity [1; 0] [89999; 600] = Ok (89999 / 90001)).
  { apply cosine_unit_probe; lra. }
  split; [| split; [exact cosine_probe_self | split; [exact Hb | lra]]].
  unfold search. cbn [get_embedding get_best_face bind face_embedding upright_face].
  unfold ab_gallery, get_all_gallery. cbn [collect_matches rec_embedding enrolled].
  rewrite Hb. simpl bind. rewrite cosine_probe_self. simpl bind.
  rewrite py_round_near_one, py_round_one_4.
  unfold rank_matches. simpl.
  destruct (Rle_dec 0.45 1) as [_ | H]; [| lra].
  destruct (Rle_dec 0.45 (89999 / 90001)) as [_ | H]; [| lra].
  simpl. destruct (Rle_dec 1 1) as [_ | H]; [reflexivity | lra].
Qed.

(** ** C8 *)

Lemma in_firstn_in {A} (n : nat) (x : A) (l : list A) : In x (firstn n l) -> In x l.
Proof.
  intros H. rewrite <- (firstn_skipn n l). apply in_or_app. left. exact H.
Qed.

(** [7076 / 15725] (the legs and hypotenuse of a Pythagorean triple
    7076, 14043, 15725) lies in [0.44995, 0.45): it is reported as 0.45. *)
Lemma py_round_below_threshold : py_round (7076 / 15725) 4 = 0.45.
Proof.
  rewrite (py_round_near _ 4 4500).
  - simpl. lra.
  - simpl. split; apply (Rmult_lt_reg_r 15725); try lra; field_simplify; lra.
Qed.

(** C8 (code bug): [identify] confirms its top candidate on the similarity
    rounded to 4 decimals ([matches[0].similarity >= MATCH_THRESHOLD]),
    while [verify], [compare] and the relaxed filter of [identify] itself
    compare the unrounded cosine with the threshold.  A gallery entry whose
    cosine 7076/15725 = 0.44998... is below the 0.45 threshold is therefore
    reported by [identify] as the confirmed identity ([identified = true],
    [best_match] present), while [verify] of the same user on the same image
    answers [verified = false]. *)
Theorem identify_confirms_unverified_match :
  exists r v,
    identify default_config [("u", enrolled [7076; 14043])] warm_image [upright_face] 3 = Ok r /\
    id_identified r = true /\
    id_best_match r = Some {| sm_user_id := "u"; sm_similarity := 0.45; sm_name := None |} /\
    verify default_config [("u", enrolled [7076; 14043])] "u" warm_image [upright_face] = Ok v /\
    vr_verified v = false /\ vr_similarity v = 0.45 /\
    cosine_similarity [1; 0] [7076; 14043] = Ok (7076 / 15725) /\
    7076 / 15725 < MATCH_THRESHOLD default_config.
Proof.
  assert (Hc : cosine_similarity [1; 0] [7076; 14043] = Ok (7076 / 15725)).
  { apply cosine_unit_probe; lra. }
  assert (Hv : verify default_config [("u", enrolled [7076; 14043])] "u" warm_image [upright_face] =
    Ok {| vr_user_id := "u"; vr_verified := false; vr_similarity := 0.45;
          vr_threshold := MATCH_THRESHOLD default_config;
          vr_quality := Some (assess_face_quality default_config warm_image upright_face) |}).
  { unfold verify.
    change (load_from_gallery "u" [("u", enrolled [7076; 14043])]) with (Some (enrolled [7076; 14043])).
    cbn [get_embedding get_best_face bind face_embedding upright_face rec_embedding enrolled].
    rewrite Hc. simpl bind. rewrite py_round_below_threshold.
    unfold Rleb. simpl MATCH_THRESHOLD.
    destruct (Rle_dec 0.45 (7076 / 15725)) as [H | _]; [lra | reflexivity]. }
  unfold identify. cbn [get_best_face face_embedding upright_face].
  destruct (check_liveness _ warm_image) as [[is_live conf] c].
  unfold get_all_gallery. cbn [collect_matches rec_embedding enrolled].
  rewrite Hc. simpl bind. rewrite py_round_below_threshold.
  simpl. destruct (Rle_dec (0.45 * 0.8) (7076 / 15725)) as [_ | H]; [| lra].
  simpl. destruct (Rle_dec 0.45 0.45) as [_ | H]; [| lra].
  do 2 eexists. split; [reflexivity |]. split; [reflexivity |]. split; [reflexivity |].
  split; [exact Hv |]. split; [reflexivity |]. split; [reflexivity |].
  split; [reflexivity | simpl; lra].
Qed.

(** ** C10 *)

(** C10: the liveness assessment never influences identification: two
    [identify] requests whose best faces have the same embedding, against
    the same gallery and with the same [top_k], give the same [identified],
    [matches] and [best_match] (or the same error), whatever their liveness
    sub-scores and [is_live] decisions. *)
Theorem identify_ignores_liveness (cfg : config) (g : gallery) (img1 img2 : image)
  (faces1 faces2 : list face) (top_k : nat) (f1 f2 : face)
  (Hf1 : get_best_face cfg img1 faces1 = Some f1)
  (Hf2 : get_best_face cfg img2 faces2 = Some f2)
  (Hemb : face_embedding f1 = face_embedding f2) :
  match identify cfg g img1 faces1 top_k, identify cfg g img2 faces2 top_k with
  | Ok r1, Ok r2 =>
      id_identified r1 = id_identified r2 /\ id_matches r1 = id_matches r2 /\
      id_best_match r1 = id_best_match r2
  | Err e1, Err e2 => e1 = e2
  | _, _ => False
  end.
Proof.
  unfold identify.
  destruct faces1 as [| a1 faces1]; [discriminate |].
  destruct faces2 as [| a2 faces2]; [discriminate |].
  rewrite Hf1, Hf2, <- Hemb.
  destruct (check_liveness f1 img1) as [[l1 c1] k1].
  destruct (check_liveness f2 img2) as [[l2 c2] k2].
  unfold get_all_gallery. destruct g as [| e g']; cbv beta iota zeta.
  - auto.
  - destruct (collect_matches (face_embedding f1) (MATCH_THRESHOLD cfg * 0.8) (e :: g'));
      cbn [bind]; auto.
Qed.

Lemma identify_ignores_liveness_witness :
  match identify default_config [("a", enrolled [1; 0])] warm_image [upright_face] 3,
        identify default_config [("a", enrolled [1; 0])] warm_image [narrow_face] 3 with
  | Ok r1, Ok r2 =>
      id_identified r1 = id_identified r2 /\ id_matches r1 = id_matches r2 /\
      id_best_match r1 = id_best_match r2
  | Err e1, Err e2 => e1 = e2
  | _, _ => False
  end.
Proof.
  exact (identify_ignores_liveness default_config [("a", enrolled [1; 0])] warm_image warm_image
           [upright_face] [narrow_face] 3 upright_face narrow_face eq_refl eq_refl eq_refl).
Defined.

(** * Further properties of the service *)

(** ** Rounding is monotone *)

Lemma Int_part_range (y : R) : IZR (Int_part y) <= y < IZR (Int_part y) + 1.
Proof. destruct (base_Int_part y) as [H1 H2]. lra. Qed.

Lemma py_round_int_range (y : R) : (Int_part y <= py_round_int y <= Int_part y + 1)%Z.
Proof.
  unfold py_round_int.
  destruct (Rlt_dec _ _); [lia |]. destruct (Rlt_dec _ _); [lia |].
  destruct (Z.even _); lia.
Qed.

Lemma Int_part_mono (y1 y2 : R) : y1 <= y2 -> (Int_part y1 <= Int_part y2)%Z.
Proof.
  intros H. pose proof (Int_part_range y1) as [A1 B1]. pose proof (Int_part_range y2) as [A2 B2].
  destruct (Z_le_gt_dec (Int_part y1) (Int_part y2)) as [| Hgt]; [assumption |].
  exfalso. assert (Hz : IZR (Int_part y2 + 1) <= IZR (Int_part y1)) by (apply IZR_le; lia).
  rewrite plus_IZR in Hz. lra.
Qed.

Lemma py_round_int_mono (y1 y2 : R) : y1 <= y2 -> (py_round_int y1 <= py_round_int y2)%Z.
Proof.
  intros H. pose proof (Int_part_mono y1 y2 H) as Hf.
  destruct (Z.eq_dec (Int_part y1) (Int_part y2)) as [Heq | Hne].
  - unfold py_round_int. rewrite Heq. set (f := Int_part y2).
    repeat destruct (Rlt_dec _ _); try destruct (Z.even f); try lia; lra.
  - pose proof (py_round_int_range y1). pose proof (py_round_int_range y2). lia.
Qed.

Lemma py_round_mono (x y : R) (n : nat) : x <= y -> py_round x n <= py_round y n.
Proof.
  intros H. unfold py_round, Rdiv. pose proof (pow_lt 10 n ltac:(lra)) as Hp.
  apply Rmult_le_compat_r; [left; apply Rinv_0_lt_compat; exact Hp |].
  apply IZR_le, py_round_int_mono. apply Rmult_le_compat_r; lra.
Qed.

Lemma py_round_IZR (z : Z) (n : nat) : py_round (IZR z) n = IZR z.
Proof.
  apply (py_round_exact _ n (z * 10 ^ Z.of_nat n)).
  rewrite mult_IZR, <- pow_IZR. reflexivity.
Qed.

Lemma py_round_unit (x : R) (n : nat) : 0 <= x <= 1 -> 0 <= py_round x n <= 1.
Proof.
  intros [H0 H1].
  pose proof (py_round_mono 0 x n H0) as L. pose proof (py_round_mono x 1 n H1) as U.
  rewrite py_round_IZR in L, U. lra.
Qed.

Lemma py_round_sym_unit (x : R) (n : nat) : -1 <= x <= 1 -> -1 <= py_round x n <= 1.
Proof.
  intros [H0 H1].
  pose proof (py_round_mono (-1) x n H0) as L. pose proof (py_round_mono x 1 n H1) as U.
  rewrite py_round_IZR in L, U. lra.
Qed.

(** ** Cauchy-Schwarz for [dot] *)

Lemma dot_cauchy_schwarz (a b : list R) : dot a b * dot a b <= dot a a * dot b b.
Proof.
  revert b; induction a as [| x a IH]; intros [| y b]; simpl; try nra.
  specialize (IH b). pose proof (dot_self_nonneg a) as HA. pose proof (dot_self_nonneg b) as HB.
  set (A := dot a a) in *. set (B := dot b b) in *. set (D := dot a b) in *.
  assert (Hk : 2 * (x * y * D) <= x * x * B + y * y * A).
  { destruct (Req_dec A 0) as [HA0 | HA0].
    - rewrite HA0 in IH. assert (HD : D = 0) by nra. rewrite HD, HA0.
      pose proof (Rle_0_sqr x). unfold Rsqr in *. nra.
    - assert (HApos : 0 < A) by lra.
      assert (Hid : A * (x * x * B + y * y * A - 2 * (x * y * D)) =
                    (y * A - x * D) * (y * A - x * D) + x * x * (A * B - D * D)) by ring.
      assert (Hs : 0 <= (y * A - x * D) * (y * A - x * D) + x * x * (A * B - D * D)).
      { pose proof (Rle_0_sqr (y * A - x * D)). pose proof (Rle_0_sqr x). unfold Rsqr in *. nra. }
      nra. }
  nra.
Qed.

Lemma cosine_similarity_range (a b : list R) (s : R) :
  cosine_similarity a b = Ok s -> -1 <= s <= 1.
Proof.
  unfold cosine_similarity. destruct (negb _); [discriminate |].
  destruct (Req_dec_T (norm a) 0); [intros H; inversion H; lra |].
  destruct (Req_dec_T (norm b) 0); [intros H; inversion H; lra |].
  intros H; inversion H; subst s; clear H.
  pose proof (norm_nonneg a). pose proof (norm_nonneg b).
  assert (Hp : 0 < norm a * norm b) by (apply Rmult_lt_0_compat; lra).
  pose proof (dot_cauchy_schwarz a b) as Hcs.
  rewrite <- (norm_mul_self a), <- (norm_mul_self b) in Hcs.
  set (P := norm a * norm b) in *. set (d := dot a b) in *.
  assert (HP2 : P * P = norm a * norm a * (norm b * norm b)) by (unfold P; ring).
  assert (Hup : d <= P) by nra.
  assert (Hlo : - P <= d) by nra.
  assert (Hq : d / P * P = d) by (field; lra).
  split; nra.
Qed.

Lemma cosine_similarity_comm (a b : list R) : cosine_similarity a b = cosine_similarity b a.
Proof.
  unfold cosine_similarity. rewrite Nat.eqb_sym.
  destruct (negb _); [reflexivity |].
  destruct (Req_dec_T (norm a) 0), (Req_dec_T (norm b) 0); try reflexivity.
  rewrite dot_comm, Rmult_comm. reflexivity.
Qed.

(** ** Ranges of the quality and liveness scores *)

(** The crop statistics numpy computes for a real image: a variance and a
    mean of gradient norms are never negative. *)
Definition blur_stats_nonneg (img : image) (b : bbox) : Prop :=
  match blur_crop img (int_box b) with
  | BlurGray variance sharpness => 0 <= variance /\ 0 <= sharpness
  | BlurEmpty => True
  end.

(** Liveness statistics of a real crop: non-negative means and deviations,
    and a spectrum mean at least the central-window mean (no negative
    high-frequency part). *)
Definition live_stats_valid (st : live_stats) : Prop :=
  0 <= low_freq st /\ low_freq st <= spectrum_mean st /\ 0 <= texture_grad st /\
  match channels st with
  | Some (_, (r_std, g_std, b_std)) => 0 <= r_std /\ 0 <= g_std /\ 0 <= b_std
  | None => True
  end.

(** [|yaw| + |pitch| + |roll|], the numerator of the pose penalty. *)
Definition pose_sum (f : face) : R :=
  let '(yaw, pitch, roll) := pose_angles f in Rabs yaw + Rabs pitch + Rabs roll.

Lemma calculate_blur_nonneg (cfg : config) (img : image) (b : bbox) :
  0 <= calculate_blur cfg img b.
Proof.
  unfold calculate_blur. destruct (blur_crop img (int_box b)) as [| v s]; [lra |].
  destruct (scipy_available cfg); [pose proof (Rmin_r (v / 500) 1); lra | apply Rmax_l].
Qed.

Lemma calculate_blur_le_one (cfg : config) (img : image) (b : bbox) :
  blur_stats_nonneg img b -> calculate_blur cfg img b <= 1.
Proof.
  unfold blur_stats_nonneg, calculate_blur.
  destruct (blur_crop img (int_box b)) as [| v s]; [lra |]. intros [Hv Hs].
  destruct (scipy_available cfg).
  - assert (0 <= Rmin (v / 500) 1) by (apply Rmin_glb; lra). lra.
  - apply Rmax_lub; [lra |]. assert (0 <= s / 30) by lra. lra.
Qed.

Lemma py_int_nonneg (x : R) : 0 <= x -> (0 <= py_int x)%Z.
Proof.
  intros H. unfold py_int. destruct (Rle_dec 0 x) as [_ | Hn]; [| contradiction].
  pose proof (Int_part_range x) as [A B].
  assert (Hz : IZR (-1) < IZR (Int_part x)) by lra. apply lt_IZR in Hz. lia.
Qed.

Lemma combined_confidence_five (a b c d e : R) :
  combined_confidence
    [("screen_pattern", CNum a); ("color_distribution", CNum b); ("face_proportion", CNum c);
     ("detection_confidence", CNum d); ("texture_complexity", CNum e)] =
  a * 0.25 + b * 0.2 + c * 0.1 + d * 0.25 + e * 0.2.
Proof. unfold combined_confidence, liveness_weights, checks_get. simpl. ring. Qed.

Lemma Rmin_unit (x : R) : 0 <= x -> 0 <= Rmin x 1 <= 1.
Proof. intros H. split; [apply Rmin_glb; lra | apply Rmin_r]. Qed.

(** X4: the blur level returned by [calculate_blur] lies in [0,1] for the
    statistics of any real crop; it is never negative, whatever the
    statistics. *)
Theorem calculate_blur_range (cfg : config) (img : image) (b : bbox)
    (Hst : blur_stats_nonneg img b) :
  0 <= calculate_blur cfg img b <= 1.
Proof. split; [apply calculate_blur_nonneg | apply calculate_blur_le_one; exact Hst]. Qed.

(** X5: the quality score reported by [assess_face_quality] never exceeds 1
    when the detection confidence is at most 1; it is at least 0 when,
    moreover, the detection confidence is non-negative, the pose angles sum
    (in absolute value) to at most 180 degrees, the box area is
    non-negative and the crop statistics are those of a real image. *)
Theorem quality_score_bounds (cfg : config) (img : image) (f : face)
    (Hdet : det_score f <= 1) :
  score (assess_face_quality cfg img f) <= 1 /\
  (0 <= det_score f -> pose_sum f <= 180 ->
   0 <= (x2 (face_bbox f) - x1 (face_bbox f)) * (y2 (face_bbox f) - y1 (face_bbox f)) ->
   blur_stats_nonneg img (face_bbox f) ->
   0 <= score (assess_face_quality cfg img f)).
Proof.
  assert (Hscore : score (assess_face_quality cfg img f) = py_round (quality_score cfg img f) 3).
  { unfold assess_face_quality. destruct (pose_angles f) as [[yaw pitch] roll]. reflexivity. }
  rewrite Hscore.
  pose proof (calculate_blur_nonneg cfg img (face_bbox f)) as Hb0.
  assert (Hq : forall lo hi, lo <= quality_score cfg img f <= hi ->
                 py_round lo 3 <= py_round (quality_score cfg img f) 3 <= py_round hi 3).
  { intros lo hi [H1 H2]. split; apply py_round_mono; assumption. }
  unfold pose_sum. unfold quality_score in *.
  destruct (pose_angles f) as [[yaw pitch] roll].
  set (blur := calculate_blur cfg img (face_bbox f)) in *.
  set (fs := py_int ((x2 (face_bbox f) - x1 (face_bbox f)) * (y2 (face_bbox f) - y1 (face_bbox f)))).
  pose proof (Rabs_pos yaw). pose proof (Rabs_pos pitch). pose proof (Rabs_pos roll).
  pose proof (Rmin_r (IZR fs / (200 * 200)) 1).
  split.
  - pose proof (py_round_mono _ 1 3 (ltac:(lra) :
      det_score f * 0.3 + (1 - (Rabs yaw + Rabs pitch + Rabs roll) / 180) * 0.25 +
      (1 - blur) * 0.25 + Rmin (IZR fs / (200 * 200)) 1 * 0.2 <= 1)) as Hr.
    rewrite py_round_IZR in Hr. exact Hr.
  - clear Hq. intros Hd0 Hpose Harea Hst.
    pose proof (calculate_blur_le_one cfg img (face_bbox f) Hst) as Hb1. fold blur in Hb1.
    assert (Hfs : 0 <= IZR fs) by (apply IZR_le, py_int_nonneg; exact Harea).
    assert (Hsz : 0 <= Rmin (IZR fs / (200 * 200)) 1) by (apply Rmin_glb; lra).
    pose proof (py_round_mono 0 _ 3 (ltac:(lra) : 0 <=
      det_score f * 0.3 + (1 - (Rabs yaw + Rabs pitch + Rabs roll) / 180) * 0.25 +
      (1 - blur) * 0.25 + Rmin (IZR fs / (200 * 200)) 1 * 0.2)) as Hr.
    rewrite py_round_IZR in Hr. exact Hr.
Qed.

(** X6: [check_liveness] reports a confidence in [0,1] whenever the
    detection confidence is in [0,1] and the crop statistics are those of a
    real image with no negative high-frequency part (spectrum mean at least
    the central-window mean). *)
Theorem liveness_confidence_range (f : face) (img : image)
    (Hdet : 0 <= det_score f <= 1)
    (Hst : forall st, live_crop img (int_box (face_bbox f)) = LiveRegion st -> live_stats_valid st) :
  0 <= snd (fst (check_liveness f img)) <= 1.
Proof.
  unfold check_liveness.
  destruct (int_box (face_bbox f)) as [[[a b] c] d].
  destruct (live_crop img (a, b, c, d)) as [| st]; [simpl; lra |].
  specialize (Hst st eq_refl). destruct Hst as (Hlow & Hmean & Htex & Hch).
  cbv zeta. simpl fst. simpl snd. rewrite combined_confidence_five.
  assert (Hscreen : 0 <= 1 - Rmin ((spectrum_mean st - low_freq st) / (low_freq st + 1e-6) / 2) 1 <= 1).
  { assert (0 <= (spectrum_mean st - low_freq st) / (low_freq st + 1e-6) / 2).
    { unfold Rdiv. apply Rmult_le_pos; [apply Rmult_le_pos |]; try lra.
      left; apply Rinv_0_lt_compat; lra. }
    pose proof (Rmin_unit _ H). lra. }
  assert (Hcolor : 0 <= match channels st with
      | Some (r_mean, g_mean, b_mean, (r_std, g_std, b_std)) =>
          py_round ((if Rltb g_mean r_mean && Rltb b_mean g_mean then 1 else 0.6) * 0.5 +
                    Rmin ((r_std + g_std + b_std) / 150) 1 * 0.5) 3
      | None => 0.5 end <= 1).
  { destruct (channels st) as [[[[rm gm] bm] [[rs gs] bs]] |]; [| lra].
    destruct Hch as (H1 & H2 & H3).
    apply py_round_unit.
    assert (0 <= (rs + gs + bs) / 150) by lra.
    pose proof (Rmin_unit _ H).
    destruct (Rltb gm rm && Rltb bm gm); lra. }
  assert (Hprop : forall x : R, 0 <= py_round (if Rltb 0.6 x && Rltb x 0.9 then 1 else 0.5) 3 <= 1).
  { intros x. apply py_round_unit. destruct (Rltb 0.6 x && Rltb x 0.9); lra. }
  pose proof (py_round_unit _ 3 Hscreen) as Hs.
  pose proof (py_round_unit _ 3 Hdet) as Hd.
  assert (Htx : 0 <= texture_grad st / 25) by lra.
  pose proof (py_round_unit _ 3 (Rmin_unit _ Htx)) as Ht.
  apply py_round_unit.
  match goal with
  | |- context [py_round (if Rltb 0.6 ?x && _ then _ else _) 3] => pose proof (Hprop x) as Hp
  end.
  lra.
Qed.

(** ** Best-face selection *)

Lemma sort_desc_head {A} (key : A -> R) (l : list A) (x : A) (t : list A) :
  sort_desc key l = x :: t ->
  exists pre post, l = (pre ++ x :: post)%list /\
    Forall (fun y => key y < key x) pre /\ Forall (fun y => key y <= key x) post.
Proof.
  revert x t; induction l as [| y l IH]; intros x t H; [discriminate |].
  simpl in H. destruct (sort_desc key l) as [| h t'] eqn:Hs.
  - simpl in H. inversion H; subst.
    assert (Hl : l = []).
    { apply Permutation_nil. rewrite <- Hs. apply sort_desc_perm. }
    subst l. exists [], []. repeat split; constructor.
  - destruct (IH h t' eq_refl) as (pre & post & Hl & Hpre & Hpost).
    simpl in H. destruct (Rle_dec (key h) (key y)) as [Hle | Hgt].
    + inversion H; subst x t. exists [], l. split; [reflexivity |]. split; [constructor |].
      rewrite Hl. apply Forall_app. split.
      * eapply Forall_impl; [| exact Hpre]. intros z Hz. simpl in Hz. lra.
      * constructor; [exact Hle |]. eapply Forall_impl; [| exact Hpost]. intros z Hz. simpl in Hz. lra.
    + inversion H; subst x t. exists (y :: pre), post. split; [rewrite Hl; reflexivity |].
      split; [constructor; [lra | exact Hpre] | exact Hpost].
Qed.

(** X3: with at least one detected face, [get_best_face] returns one of
    them, [b], whose reported quality score is the highest: every face
    listed before [b] scores strictly lower and every face after it scores
    at most as much, so ties go to the earliest face. *)
Theorem get_best_face_highest (cfg : config) (img : image) (faces : list face) (b : face)
    (Hb : get_best_face cfg img faces = Some b) :
  exists pre post, faces = (pre ++ b :: post)%list /\
    Forall (fun f => score (assess_face_quality cfg img f) < score (assess_face_quality cfg img b)) pre /\
    Forall (fun f => score (assess_face_quality cfg img f) <= score (assess_face_quality cfg img b)) post.
Proof.
  destruct faces as [| f0 [| f1 rest]].
  - discriminate.
  - inversion Hb; subst. exists [], []. repeat split; constructor.
  - unfold get_best_face in Hb.
    destruct (sort_desc snd (map (fun f => (f, score (assess_face_quality cfg img f))) (f0 :: f1 :: rest)))
      as [| [bf s] t] eqn:Hs; [discriminate |].
    inversion Hb; subst bf.
    destruct (sort_desc_head snd _ _ _ Hs) as (pre & post & Hl & Hpre & Hpost).
    apply map_eq_app in Hl. destruct Hl as (pre' & l2 & Heq & Hm1 & Hm2).
    apply map_eq_cons in Hm2. destruct Hm2 as (b' & post' & Heq2 & Hbs & Hm3).
    inversion Hbs; subst b' s.
    exists pre', post'. split; [rewrite Heq, Heq2; reflexivity |].
    subst pre post. rewrite Forall_map in Hpre, Hpost. simpl in Hpre, Hpost.
    split; assumption.
Qed.

(** ** The gallery dict: distinct keys, updates and removals *)

Lemma dict_get_set_other {V} (k k' : string) (v : V) (d : list (string * V)) :
  k' <> k -> dict_get k' (dict_set k v d) = dict_get k' d.
Proof.
  intros Hne. induction d as [| [k0 v0] d IH]; simpl.
  - destruct (String.eqb_spec k' k); [contradiction | reflexivity].
  - destruct (String.eqb_spec k k0) as [-> | Hk]; simpl.
    + destruct (String.eqb_spec k' k0); [contradiction | reflexivity].
    + rewrite IH. reflexivity.
Qed.

Lemma dict_set_keys {V} (k : string) (v : V) (d : list (string * V)) :
  map fst (dict_set k v d) =
  if in_dec string_dec k (map fst d) then map fst d else (map fst d ++ [k])%list.
Proof.
  induction d as [| [k0 v0] d IH]; [reflexivity |].
  cbn [dict_set]. destruct (String.eqb_spec k k0) as [-> | Hk].
  - cbn [map fst]. destruct (in_dec string_dec k0 (k0 :: map fst d)) as [_ | Hn];
      [reflexivity | exfalso; apply Hn; left; reflexivity].
  - cbn [map fst]. rewrite IH.
    destruct (in_dec string_dec k (k0 :: map fst d)) as [Hin' | Hnin'];
    destruct (in_dec string_dec k (map fst d)) as [Hin | Hnin]; try reflexivity.
    + exfalso. destruct Hin' as [H | H]; [congruence | contradiction].
    + exfalso. apply Hnin'. right. exact Hin.
Qed.

Lemma dict_get_in {V} (k : string) (v : V) (d : list (string * V)) :
  dict_get k d = Some v -> In (k, v) d.
Proof.
  induction d as [| [k0 v0] d IH]; simpl; [discriminate |].
  destruct (String.eqb_spec k k0) as [-> | _].
  - intros H; inversion H; left; reflexivity.
  - intros H; right; exact (IH H).
Qed.

Lemma dict_get_none {V} (k : string) (d : list (string * V)) :
  ~ In k (map fst d) -> dict_get k d = None.
Proof.
  induction d as [| [k0 v0] d IH]; simpl; intros H; [reflexivity |].
  destruct (String.eqb_spec k k0) as [-> | _]; [exfalso; apply H; left; reflexivity |].
  apply IH. intros Hin; apply H; right; exact Hin.
Qed.

Lemma dict_get_nodup_in {V} (k : string) (v : V) (d : list (string * V)) :
  NoDup (map fst d) -> In (k, v) d -> dict_get k d = Some v.
Proof.
  induction d as [| [k0 v0] d IH]; simpl; intros Hnd Hin; [destruct Hin |].
  inversion Hnd as [| ? ? Hnin Hnd']; subst.
  destruct Hin as [Heq | Hin].
  - inversion Heq; subst. rewrite String.eqb_refl. reflexivity.
  - destruct (String.eqb_spec k k0) as [-> | _].
    + exfalso. apply Hnin. apply (in_map fst) in Hin. exact Hin.
    + apply IH; assumption.
Qed.

Lemma dict_del_get_other {V} (k k' : string) (d : list (string * V)) :
  k' <> k -> dict_get k' (dict_del k d) = dict_get k' d.
Proof.
  intros Hne. induction d as [| [k0 v0] d IH]; simpl; [reflexivity |].
  destruct (String.eqb_spec k k0) as [-> | Hk]; simpl.
  - destruct (String.eqb_spec k' k0); [contradiction | reflexivity].
  - rewrite IH. reflexivity.
Qed.

Lemma dict_del_get_self {V} (k : string) (d : list (string * V)) :
  NoDup (map fst d) -> dict_get k (dict_del k d) = None.
Proof.
  induction d as [| [k0 v0] d IH]; simpl; intros Hnd; [reflexivity |].
  inversion Hnd as [| ? ? Hnin Hnd']; subst.
  destruct (String.eqb_spec k k0) as [-> | Hk].
  - apply dict_get_none. exact Hnin.
  - simpl. destruct (String.eqb_spec k k0); [contradiction |]. exact (IH Hnd').
Qed.

Lemma unenroll_cases (user_id : string) (g : gallery) :
  (dict_get user_id g = None ->
   unenroll user_id g = Err (HTTPException 404 ("User " ++ user_id ++ " not found in gallery"))) /\
  (forall d, dict_get user_id g = Some d ->
   unenroll user_id g = Ok ({| un_user_id := user_id; un_deleted := true |}, dict_del user_id g)).
Proof.
  unfold unenroll, delete_from_gallery. split.
  - intros H. rewrite H. reflexivity.
  - intros d H. rewrite H. reflexivity.
Qed.

(** The outcomes of [enroll]: the gallery is either unchanged or updated
    with the best face's embedding after the quality gate. *)
Lemma enroll_outcomes (cfg : config) (now : string) (g g' : gallery) (user_id : string)
    (name : option string) (metadata : option (list (string * string)))
    (img : image) (faces : list face) (resp : EnrollResponse) :
  enroll cfg now g user_id name metadata img faces = Ok (resp, g') ->
  en_user_id resp = user_id /\
  ((en_success resp = false /\ g' = g) \/
   (en_success resp = true /\ exists b,
      get_best_face cfg img faces = Some b /\
      en_quality resp = Some (assess_face_quality cfg img b) /\
      QUALITY_THRESHOLD cfg <= score (assess_face_quality cfg img b) /\
      g' = save_to_gallery now user_id (face_embedding b) name metadata g)).
Proof.
  intros H. unfold enroll in H.
  destruct faces as [| f0 fs].
  - simpl in H. inversion H; subst. split; [reflexivity |]. left; split; reflexivity.
  - destruct (get_embedding_nonempty cfg img (f0 :: fs) true ltac:(discriminate)) as [b [Hb Hemb]].
    rewrite Hemb in H.
    unfold Rltb in H. destruct (Rlt_dec (score (assess_face_quality cfg img b)) (QUALITY_THRESHOLD cfg)) as [Hlt | Hge].
    + inversion H; subst. split; [reflexivity |]. left; split; reflexivity.
    + inversion H; subst. split; [reflexivity |]. right. split; [reflexivity |].
      exists b. repeat split; [exact Hb | lra].
Qed.

(** X7: [unenroll] of a user who is not in the gallery fails with a 404
    error (and so leaves the gallery as it is).  For an enrolled user it
    succeeds: afterwards the user can no longer be loaded, every other user
    loads as before, and a second [unenroll] of the same user fails with 404.
    (The gallery's user ids are distinct, as in a dict.) *)
Theorem unenroll_removes_user (user_id : string) (g : gallery) (Hnd : NoDup (map fst g)) :
  (load_from_gallery user_id g = None ->
   unenroll user_id g = Err (HTTPException 404 ("User " ++ user_id ++ " not found in gallery"))) /\
  (forall d, load_from_gallery user_id g = Some d ->
   exists g', unenroll user_id g = Ok ({| un_user_id := user_id; un_deleted := true |}, g') /\
     load_from_gallery user_id g' = None /\
     (forall v, v <> user_id -> load_from_gallery v g' = load_from_gallery v g) /\
     unenroll user_id g' = Err (HTTPException 404 ("User " ++ user_id ++ " not found in gallery"))).
Proof.
  unfold load_from_gallery. split.
  - apply (unenroll_cases user_id g).
  - intros d Hd. exists (dict_del user_id g).
    pose proof (dict_del_get_self user_id g Hnd) as Hnone.
    split; [exact (proj2 (unenroll_cases user_id g) d Hd) |].
    split; [exact Hnone |].
    split; [intros v Hv; apply dict_del_get_other; exact Hv |].
    apply (unenroll_cases user_id (dict_del user_id g)). exact Hnone.
Qed.

(** X9: [enroll] never touches another user's record, and an unsuccessful
    enrollment leaves the gallery unchanged. *)
Theorem enroll_frame (cfg : config) (now : string) (g g' : gallery) (user_id : string)
    (name : option string) (metadata : option (list (string * string)))
    (img : image) (faces : list face) (resp : EnrollResponse)
    (H : enroll cfg now g user_id name metadata img faces = Ok (resp, g')) :
  (forall v, v <> user_id -> load_from_gallery v g' = load_from_gallery v g) /\
  (en_success resp = false -> g' = g).
Proof.
  destruct (enroll_outcomes cfg now g g' user_id name metadata img faces resp H)
    as [_ [[Hs ->] | [Hs (b & _ & _ & _ & ->)]]].
  - split; reflexivity.
  - split; [intros v Hv; apply dict_get_set_other; exact Hv |].
    intros Hf; congruence.
Qed.

(** X10: a successful [enroll] has passed the quality gate: it reports the
    quality of the best detected face, that face's score is at least the
    quality threshold, and the gallery then holds the best face's embedding
    under the user id, with the given name, the metadata (or an empty dict)
    and the enrollment time. *)
Theorem enroll_success_quality_gate (cfg : config) (now : string) (g g' : gallery)
    (user_id : string) (name : option string) (metadata : option (list (string * string)))
    (img : image) (faces : list face) (resp : EnrollResponse)
    (H : enroll cfg now g user_id name metadata img faces = Ok (resp, g'))
    (Hs : en_success resp = true) :
  exists b, get_best_face cfg img faces = Some b /\
    en_quality resp = Some (assess_face_quality cfg img b) /\
    QUALITY_THRESHOLD cfg <= score (assess_face_quality cfg img b) /\
    load_from_gallery user_id g' =
      Some {| rec_embedding := face_embedding b; rec_name := name;
              rec_metadata := match metadata with Some m => m | None => [] end;
              rec_enrolled_at := now |}.
Proof.
  destruct (enroll_outcomes cfg now g g' user_id name metadata img faces resp H)
    as [_ [[Hf _] | [_ (b & Hb & Hq & Hth & ->)]]]; [congruence |].
  exists b. repeat split; try assumption. apply load_save.
Qed.

(** X11: after a successful [enroll], [list_gallery] counts one more user
    if the id was new and the same number otherwise, lists the user with
    the given name, metadata (or an empty dict) and enrollment time, and
    [health] reports the same count as [gallery_size]. *)
Theorem enroll_listing (cfg : config) (now : string) (g g' : gallery) (user_id : string)
    (name : option string) (metadata : option (list (string * string)))
    (img : image) (faces : list face) (resp : EnrollResponse)
    (USE_GPU : bool) (model : face_model_state) (redis_connected : bool)
    (H : enroll cfg now g user_id name metadata img faces = Ok (resp, g'))
    (Hs : en_success resp = true) :
  gl_total (list_gallery g') =
    (if in_dec string_dec user_id (map fst g) then List.length g else S (List.length g)) /\
  In {| gu_user_id := user_id; gu_name := name; gu_enrolled_at := now;
        gu_metadata := match metadata with Some m => m | None => [] end |}
     (gl_users (list_gallery g')) /\
  h_gallery_size (health cfg USE_GPU model redis_connected g') = gl_total (list_gallery g').
Proof.
  destruct (enroll_outcomes cfg now g g' user_id name metadata img faces resp H)
    as [_ [[Hf _] | [_ (b & _ & _ & _ & ->)]]]; [congruence |].
  unfold list_gallery, get_all_gallery, health. cbn [gl_total gl_users h_gallery_size].
  rewrite length_map.
  split; [| split].
  - rewrite <- (length_map fst (save_to_gallery _ _ _ _ _ _)), <- (length_map fst g).
    unfold save_to_gallery. rewrite dict_set_keys.
    destruct (in_dec string_dec user_id (map fst g)); [reflexivity |].
    rewrite length_app. simpl. lia.
  - pose proof (dict_get_in _ _ _ (load_save now user_id (face_embedding b) name metadata g)) as H0.
    apply (in_map (fun '(user_id, data) =>
      {| gu_user_id := user_id; gu_name := rec_name data; gu_enrolled_at := rec_enrolled_at data;
         gu_metadata := rec_metadata data |})) in H0. exact H0.
  - reflexivity.
Qed.

(** ** Similarity reports of compare, verify, search and identify *)

Lemma search_ok_inv (cfg : config) (g : gallery) (img : image) (faces : list face)
    (top_k : nat) (threshold : option R) (sr : SearchResponse) :
  search cfg g img faces top_k threshold = Ok sr ->
  exists E s0 n q ms,
    get_embedding cfg img faces true = Ok (E, s0, n, q) /\
    collect_matches E (match threshold with Some t => t | None => MATCH_THRESHOLD cfg end) g = Ok ms /\
    sr_matches sr = rank_matches top_k ms.
Proof.
  unfold search. destruct (get_embedding cfg img faces true) as [[[[E s0] n] q] | e]; [| discriminate].
  simpl bind. unfold get_all_gallery. intros H.
  exists E, s0, n, q. destruct g as [| e g'].
  - inversion H; subst. exists []. split; [reflexivity |]. split; [reflexivity |].
    unfold rank_matches. simpl. rewrite firstn_nil_any. reflexivity.
  - destruct (collect_matches E _ (e :: g')) as [ms | err] eqn:Hc; [| discriminate].
    simpl in H. inversion H; subst. exists ms. split; [reflexivity |]. split; reflexivity.
Qed.

Lemma search_result (cfg : config) (g : gallery) (img : image) (faces : list face)
    (top_k : nat) (threshold : option R) (E : list R) (s0 : R) (n : nat) (q : option FaceQuality) :
  get_embedding cfg img faces true = Ok (E, s0, n, q) ->
  same_length_gallery E g ->
  search cfg g img faces top_k threshold =
    Ok {| sr_matches := rank_matches top_k
            (eligible_matches E (match threshold with Some t => t | None => MATCH_THRESHOLD cfg end) g);
          sr_faces_detected := n; sr_quality := q |}.
Proof.
  intros Hemb Hlen. unfold search. rewrite Hemb. simpl bind. unfold get_all_gallery.
  destruct g as [| e g'].
  - unfold rank_matches, eligible_matches. simpl. rewrite firstn_nil_any. reflexivity.
  - rewrite collect_matches_eligible by exact Hlen. reflexivity.
Qed.

Lemma in_rank_matches (top_k : nat) (ms : list SearchMatch) (m : SearchMatch) :
  In m (rank_matches top_k ms) -> In m ms.
Proof.
  unfold rank_matches. intros H. apply in_firstn_in in H.
  eapply Permutation_in; [apply sort_desc_perm | exact H].
Qed.

Lemma rank_matches_all (top_k : nat) (ms : list SearchMatch) (m : SearchMatch) :
  (List.length ms <= top_k)%nat -> (In m (rank_matches top_k ms) <-> In m ms).
Proof.
  intros Hl. unfold rank_matches.
  rewrite firstn_all2 by (rewrite (Permutation_length (sort_desc_perm sm_similarity ms)); exact Hl).
  split; intros H; eapply Permutation_in; [apply sort_desc_perm | exact H |
    apply Permutation_sym, sort_desc_perm | exact H].
Qed.

Lemma collect_matches_ids_nodup (E : list R) (th : R) (g : gallery) (ms : list SearchMatch) :
  NoDup (map fst g) -> collect_matches E th g = Ok ms -> NoDup (map sm_user_id ms).
Proof.
  revert ms. induction g as [| [u d] g IH]; intros ms Hnd H; simpl in H.
  - inversion H; constructor.
  - inversion Hnd as [| ? ? Hnin Hnd']; subst.
    destruct (cosine_similarity E (rec_embedding d)) as [s |]; [| discriminate]. simpl in H.
    destruct (collect_matches E th g) as [rest |] eqn:Hr; [| discriminate]. simpl in H.
    inversion H; subst ms. clear H.
    pose proof (IH rest Hnd' eq_refl) as Hrest.
    destruct (Rle_dec th s); [| exact Hrest].
    simpl. constructor; [| exact Hrest].
    intros Hin. apply in_map_iff in Hin. destruct Hin as (m & Hmu & Hm).
    destruct (collect_matches_sound E th g rest Hr m Hm) as (u' & d' & s' & Hin' & _ & _ & ->).
    simpl in Hmu. subst u'. apply Hnin. apply (in_map fst) in Hin'. exact Hin'.
Qed.

Lemma rank_matches_nodup (top_k : nat) (ms : list SearchMatch) :
  NoDup (map sm_user_id ms) -> NoDup (map sm_user_id (rank_matches top_k ms)).
Proof.
  intros H. unfold rank_matches.
  assert (Hs : NoDup (map sm_user_id (sort_desc sm_similarity ms))).
  { eapply Permutation_NoDup; [| exact H]. apply Permutation_map, Permutation_sym, sort_desc_perm. }
  rewrite <- (firstn_skipn top_k (sort_desc sm_similarity ms)) in Hs.
  rewrite map_app in Hs. exact (NoDup_app_remove_r _ _ Hs).
Qed.

(** X1: every similarity the service reports lies in [-1,1]: the value
    rounded to 4 decimals of [compare] and [verify], and that of each
    [search] match.  The cosine itself lies in [-1,1] by Cauchy-Schwarz; a
    float64 rounding excess such as 1.0000000000000002 disappears in the
    rounding to 4 decimals. *)
Theorem reported_similarity_in_unit_range :
  (forall cfg img1 faces1 img2 faces2 r,
     compare cfg img1 faces1 img2 faces2 = Ok r -> -1 <= cr_similarity r <= 1) /\
  (forall cfg g user_id img faces v,
     verify cfg g user_id img faces = Ok v -> -1 <= vr_similarity v <= 1) /\
  (forall cfg g img faces top_k threshold sr m,
     search cfg g img faces top_k threshold = Ok sr -> In m (sr_matches sr) ->
     -1 <= sm_similarity m <= 1).
Proof.
  split; [| split].
  - intros cfg img1 faces1 img2 faces2 r H. unfold compare in H.
    destruct (get_embedding cfg img1 faces1 true) as [[[[e1 ?] ?] ?] |]; [| discriminate].
    destruct (get_embedding cfg img2 faces2 true) as [[[[e2 ?] ?] ?] |]; [| discriminate].
    simpl in H. destruct (cosine_similarity e1 e2) as [s |] eqn:Hc; [| discriminate].
    simpl in H. inversion H; subst. simpl.
    apply py_round_sym_unit. exact (cosine_similarity_range _ _ _ Hc).
  - intros cfg g user_id img faces v H. unfold verify in H.
    destruct (load_from_gallery user_id g) as [d |]; [| discriminate].
    destruct (get_embedding cfg img faces true) as [[[[e ?] ?] ?] |]; [| discriminate].
    simpl in H. destruct (cosine_similarity e (rec_embedding d)) as [s |] eqn:Hc; [| discriminate].
    simpl in H. inversion H; subst. simpl.
    apply py_round_sym_unit. exact (cosine_similarity_range _ _ _ Hc).
  - intros cfg g img faces top_k threshold sr m H Hm.
    destruct (search_ok_inv cfg g img faces top_k threshold sr H) as (E & s0 & n & q & ms & _ & Hc & Hr).
    rewrite Hr in Hm. apply in_rank_matches in Hm.
    destruct (collect_matches_sound _ _ _ _ Hc m Hm) as (u & d & s & _ & Hcs & _ & ->).
    simpl. apply py_round_sym_unit. exact (cosine_similarity_range _ _ _ Hcs).
Qed.

(** X2: [compare] is symmetric: comparing the second image with the first
    gives the same rounded similarity and match decision, with the two
    quality reports swapped. *)
Theorem compare_symmetric (cfg : config) (img1 : image) (faces1 : list face)
    (img2 : image) (faces2 : list face) (r : CompareResponse)
    (H : compare cfg img1 faces1 img2 faces2 = Ok r) :
  exists r', compare cfg img2 faces2 img1 faces1 = Ok r' /\
    cr_similarity r' = cr_similarity r /\ cr_match r' = cr_match r /\
    cr_threshold r' = cr_threshold r /\
    cr_quality_1 r' = cr_quality_2 r /\ cr_quality_2 r' = cr_quality_1 r.
Proof.
  unfold compare in *.
  destruct (get_embedding cfg img1 faces1 true) as [[[[e1 ?] ?] q1] |]; [| discriminate].
  destruct (get_embedding cfg img2 faces2 true) as [[[[e2 ?] ?] q2] |]; [| discriminate].
  simpl in *. rewrite (cosine_similarity_comm e2 e1).
  destruct (cosine_similarity e1 e2) as [s |]; [| discriminate].
  simpl in *. inversion H; subst. eexists. split; [reflexivity |]. simpl. tauto.
Qed.

(** X12: [search] and [verify] agree.  Take a probe image, a gallery with
    distinct ids whose embeddings all have the probe's length, the default
    threshold, and [top_k] at least the gallery size.  An enrolled user is
    among the search matches exactly when [verify] of that user on the same
    image says verified, with the same rounded similarity. *)
Theorem search_agrees_with_verify (cfg : config) (g : gallery) (img : image) (faces : list face)
    (top_k : nat) (user_id : string) (d : gallery_record)
    (E : list R) (s0 : R) (n : nat) (q : option FaceQuality)
    (Hnd : NoDup (map fst g))
    (Hemb : get_embedding cfg img faces true = Ok (E, s0, n, q))
    (Hlen : same_length_gallery E g)
    (Htop : (List.length g <= top_k)%nat)
    (Hd : load_from_gallery user_id g = Some d) :
  exists sr vr,
    search cfg g img faces top_k None = Ok sr /\
    verify cfg g user_id img faces = Ok vr /\
    (vr_verified vr = true <-> exists m, In m (sr_matches sr) /\ sm_user_id m = user_id) /\
    (forall m, In m (sr_matches sr) -> sm_user_id m = user_id -> sm_similarity m = vr_similarity vr).
Proof.
  pose proof (dict_get_in _ _ _ Hd) as Hin.
  assert (Hc : cosine_similarity E (rec_embedding d) = Ok (similarity_value E (rec_embedding d))).
  { unfold similarity_value.
    rewrite cosine_similarity_same_length by (symmetry; exact (Hlen user_id d Hin)). reflexivity. }
  set (sv := similarity_value E (rec_embedding d)) in *.
  eexists. eexists. split; [exact (search_result cfg g img faces top_k None E s0 n q Hemb Hlen) |].
  split; [unfold verify; rewrite Hd, Hemb; simpl bind; rewrite Hc; reflexivity |].
  cbn [sr_matches vr_verified vr_similarity].
  assert (Hel : (List.length (eligible_matches E (MATCH_THRESHOLD cfg) g) <= top_k)%nat).
  { unfold eligible_matches. rewrite length_map.
    pose proof (filter_length_le (fun ud => Rleb (MATCH_THRESHOLD cfg)
      (similarity_value E (rec_embedding (snd ud)))) g). lia. }
  assert (Horig : forall m, In m (rank_matches top_k (eligible_matches E (MATCH_THRESHOLD cfg) g)) ->
            sm_user_id m = user_id ->
            Rleb (MATCH_THRESHOLD cfg) sv = true /\ sm_similarity m = py_round sv 4).
  { intros m Hm Hu. apply (rank_matches_all top_k _ m Hel) in Hm.
    unfold eligible_matches in Hm. apply in_map_iff in Hm. destruct Hm as ([u d'] & <- & Hf).
    apply filter_In in Hf. destruct Hf as [Hin' Hth]. simpl in Hu, Hth. subst u.
    pose proof (dict_get_nodup_in user_id d' g Hnd Hin') as Hd'.
    unfold load_from_gallery in Hd. rewrite Hd in Hd'. inversion Hd'; subst d'.
    split; [exact Hth | reflexivity]. }
  split.
  - split.
    + intros Hv. exists {| sm_user_id := user_id; sm_similarity := py_round sv 4; sm_name := rec_name d |}.
      split; [| reflexivity].
      apply (rank_matches_all top_k _ _ Hel). unfold eligible_matches.
      apply in_map_iff. exists (user_id, d). split; [reflexivity |].
      apply filter_In. split; [exact Hin | exact Hv].
    + intros (m & Hm & Hu). exact (proj1 (Horig m Hm Hu)).
  - intros m Hm Hu. exact (proj2 (Horig m Hm Hu)).
Qed.

(** X13: enrolling a user from one image and then verifying a second image
    against that user gives the same rounded similarity, the same decision
    and the same quality report for the second image as comparing the two
    images directly. *)
Theorem compare_agrees_with_enroll_verify (cfg : config) (now : string) (g g' : gallery)
    (user_id : string) (name : option string) (metadata : option (list (string * string)))
    (img1 : image) (faces1 : list face) (img2 : image) (faces2 : list face)
    (resp : EnrollResponse) (r : CompareResponse)
    (Henr : enroll cfg now g user_id name metadata img1 faces1 = Ok (resp, g'))
    (Hs : en_success resp = true)
    (Hc : compare cfg img1 faces1 img2 faces2 = Ok r) :
  exists v, verify cfg g' user_id img2 faces2 = Ok v /\
    vr_similarity v = cr_similarity r /\ vr_verified v = cr_match r /\
    vr_quality v = cr_quality_2 r.
Proof.
  destruct (enroll_outcomes cfg now g g' user_id name metadata img1 faces1 resp Henr)
    as [_ [[Hf _] | [_ (b & Hb & _ & _ & ->)]]]; [congruence |].
  assert (Hne : faces1 <> []) by (intros ->; discriminate).
  destruct (get_embedding_nonempty cfg img1 faces1 true Hne) as [b' [Hb' He1]].
  rewrite Hb in Hb'. inversion Hb'; subst b'. clear Hb'.
  unfold compare in Hc. rewrite He1 in Hc. simpl bind in Hc.
  unfold verify. rewrite load_save.
  destruct (get_embedding cfg img2 faces2 true) as [[[[e2 ?] ?] q2] |]; [| discriminate].
  simpl bind in *. cbn [rec_embedding]. rewrite cosine_similarity_comm.
  destruct (cosine_similarity (face_embedding b) e2) as [s |]; [| discriminate].
  simpl bind in *. inversion Hc; subst. eexists. split; [reflexivity |]. simpl. tauto.
Qed.

(** X14: [identify] lists exactly what [search] on the same image lists
    with its threshold set to 0.8 times the match threshold, and reports
    the same quality; when one of them fails, both fail with the same
    error. *)
Theorem identify_lists_search_matches (cfg : config) (g : gallery) (img : image)
    (faces : list face) (top_k : nat) :
  match identify cfg g img faces top_k,
        search cfg g img faces top_k (Some (MATCH_THRESHOLD cfg * 0.8)) with
  | Ok r, Ok s => id_matches r = sr_matches s /\ sr_quality s = Some (id_quality r)
  | Err e1, Err e2 => e1 = e2
  | _, _ => False
  end.
Proof.
  destruct faces as [| f0 fs]; [reflexivity |].
  destruct (get_embedding_nonempty cfg img (f0 :: fs) true ltac:(discriminate)) as [b [Hb Hemb]].
  unfold identify, search. rewrite Hb, Hemb. simpl bind.
  destruct (check_liveness b img) as [[il lc] ch].
  unfold get_all_gallery. destruct g as [| e g'].
  - simpl. split; reflexivity.
  - destruct (collect_matches (face_embedding b) (MATCH_THRESHOLD cfg * 0.8) (e :: g')) as [ms | err];
      simpl; [split; reflexivity | reflexivity].
Qed.

(** X15: every [search] answer lists at most [top_k] matches.  Over a
    gallery with distinct ids, no user is listed twice, and each listed match
    is an enrolled user: it carries that user's stored name, and its
    similarity is the rounded cosine of the probe embedding with the stored
    one, which reaches the threshold. *)
Theorem search_matches_wellformed (cfg : config) (g : gallery) (img : image) (faces : list face)
    (top_k : nat) (threshold : option R) (sr : SearchResponse)
    (Hnd : NoDup (map fst g))
    (H : search cfg g img faces top_k threshold = Ok sr) :
  (List.length (sr_matches sr) <= top_k)%nat /\
  NoDup (map sm_user_id (sr_matches sr)) /\
  exists E s0 n q, get_embedding cfg img faces true = Ok (E, s0, n, q) /\
    forall m, In m (sr_matches sr) -> exists d s,
      load_from_gallery (sm_user_id m) g = Some d /\ sm_name m = rec_name d /\
      cosine_similarity E (rec_embedding d) = Ok s /\
      (match threshold with Some t => t | None => MATCH_THRESHOLD cfg end) <= s /\
      sm_similarity m = py_round s 4.
Proof.
  destruct (search_ok_inv cfg g img faces top_k threshold sr H) as (E & s0 & n & q & ms & Hemb & Hc & Hr).
  rewrite Hr. split; [apply firstn_le_length |].
  split; [apply rank_matches_nodup; exact (collect_matches_ids_nodup _ _ _ _ Hnd Hc) |].
  exists E, s0, n, q. split; [exact Hemb |].
  intros m Hm. apply in_rank_matches in Hm.
  destruct (collect_matches_sound _ _ _ _ Hc m Hm) as (u & d & s & Hin & Hcs & Hth & ->).
  exists d, s. simpl. split; [exact (dict_get_nodup_in _ _ _ Hnd Hin) |]. tauto.
Qed.

(** ** Batch embedding *)

(** X17: [batch_embed] gives one result per URL, in request order, and
    never fails as a whole.  An item whose image has no face fails alone,
    with the no-face error and no embedding.  Any other item succeeds with
    the best face's embedding and detection score. *)
Theorem batch_embed_per_item (cfg : config) (items : list (string * image * list face)) :
  List.length (batch_embed cfg items) = List.length items /\
  forall i url img faces, nth_error items i = Some (url, img, faces) ->
    exists r, nth_error (batch_embed cfg items) i = Some r /\ be_image_url r = url /\
      (faces = [] -> be_success r = false /\ be_embedding r = None /\
                     be_error r = Some no_face_error) /\
      (forall b, faces <> [] -> get_best_face cfg img faces = Some b ->
         be_success r = true /\ be_embedding r = Some (face_embedding b) /\
         be_score r = Some (det_score b) /\ be_error r = None).
Proof.
  split; [apply length_map |].
  intros i url img faces Hi. unfold batch_embed. rewrite nth_error_map, Hi. simpl.
  eexists. split; [reflexivity |].
  destruct faces as [| f0 fs].
  - simpl. split; [reflexivity |]. split; [intros _; repeat split |].
    intros b Hne; contradiction.
  - destruct (get_embedding_nonempty cfg img (f0 :: fs) false ltac:(discriminate)) as [b' [Hb' He]].
    rewrite He. split; [reflexivity |]. split; [intros H; discriminate |].
    intros b _ Hb. rewrite Hb in Hb'. inversion Hb'; subst. simpl. repeat split.
Qed.

(** ** Image download and base64 parsing *)

Lemma read_chunks_total (acc : list Byte.byte) (chunks : list (list Byte.byte)) :
  (Z.of_nat (List.length acc) <= MAX_IMAGE_BYTES)%Z ->
  read_chunks acc chunks =
    if Z.ltb MAX_IMAGE_BYTES (Z.of_nat (List.length (acc ++ List.concat chunks)%list))
    then Err too_large_error else Ok (acc ++ List.concat chunks)%list.
Proof.
  revert acc. induction chunks as [| c cs IH]; intros acc Hacc; simpl.
  - rewrite app_nil_r. destruct (Z.ltb_spec MAX_IMAGE_BYTES (Z.of_nat (List.length acc))); [lia | reflexivity].
  - destruct (Z.ltb_spec MAX_IMAGE_BYTES (Z.of_nat (List.length (acc ++ c)%list))) as [Hgt | Hle].
    + rewrite app_assoc. rewrite (length_app (acc ++ c)%list (List.concat cs)).
      destruct (Z.ltb_spec MAX_IMAGE_BYTES (Z.of_nat (List.length (acc ++ c)%list + List.length (List.concat cs))));
        [reflexivity | lia].
    + rewrite (IH (acc ++ c)%list Hle). rewrite app_assoc. reflexivity.
Qed.

(** X18: [download_image] enforces its 10 MiB limit on the total size of
    the body, however the body is split into chunks: a body over the limit
    fails with "Image too large", and any other body is passed whole to
    the image decoder.  Every failure of [download_image] is an HTTP 400
    error. *)
Theorem download_image_size_limit (http_get : string -> http_response)
    (image_open : list Byte.byte -> string + image) (url : string) :
  (forall chunks, http_get url = HttpBody chunks ->
     download_image http_get image_open url =
       if Z.ltb MAX_IMAGE_BYTES (Z.of_nat (List.length (List.concat chunks))) then Err too_large_error
       else match image_open (List.concat chunks) with
            | inl msg => Err (HTTPException 400 ("Failed to download image: " ++ msg))
            | inr img => Ok img
            end) /\
  (forall e, download_image http_get image_open url = Err e ->
     exists detail, e = HTTPException 400 detail).
Proof.
  split.
  - intros chunks H. unfold download_image. rewrite H.
    rewrite (read_chunks_total [] chunks) by (unfold MAX_IMAGE_BYTES; simpl; lia).
    simpl app. destruct (Z.ltb _ _); reflexivity.
  - intros e. unfold download_image. destruct (http_get url) as [msg | chunks].
    + intros H; inversion H. eexists; reflexivity.
    + rewrite (read_chunks_total [] chunks) by (unfold MAX_IMAGE_BYTES; simpl; lia).
      destruct (Z.ltb _ _); simpl.
      * intros H; inversion H. eexists; reflexivity.
      * destruct (image_open _); intros H; inversion H. eexists; reflexivity.
Qed.

Lemma strip_prefix_app (p s : string) : strip_prefix p (p ++ s) = Some s.
Proof. induction p as [| c p IH]; simpl; [reflexivity |]. rewrite Ascii.eqb_refl. exact IH. Qed.

Lemma split_semicolon_app (mime rest : string) :
  ~ In ";"%char (list_ascii_of_string mime) ->
  split_semicolon (mime ++ String ";" rest) = Some (mime, rest).
Proof.
  induction mime as [| c m IH]; simpl; intros H; [reflexivity |].
  destruct (Ascii.eqb_spec c ";") as [-> | _]; [exfalso; apply H; left; reflexivity |].
  rewrite IH by (intros Hin; apply H; right; exact Hin). reflexivity.
Qed.

Lemma take_line_no_newline (p : string) :
  ~ In "010"%char (list_ascii_of_string p) -> take_line p = p.
Proof.
  induction p as [| c p IH]; simpl; intros H; [reflexivity |].
  destruct (Ascii.eqb_spec c "010") as [-> | _]; [exfalso; apply H; left; reflexivity |].
  rewrite IH by (intros Hin; apply H; right; exact Hin). reflexivity.
Qed.

Lemma data_url_payload_app (mime payload : string) :
  mime <> EmptyString -> ~ In ";"%char (list_ascii_of_string mime) ->
  payload <> EmptyString -> ~ In "010"%char (list_ascii_of_string payload) ->
  data_url_payload ("data:image/" ++ mime ++ ";base64," ++ payload) = Some payload.
Proof.
  intros Hm Hsemi Hp Hnl. unfold data_url_payload.
  rewrite strip_prefix_app. change (";base64," ++ payload) with (String ";" ("base64," ++ payload)).
  rewrite split_semicolon_app by exact Hsemi.
  destruct mime as [| c m]; [contradiction |].
  rewrite strip_prefix_app, take_line_no_newline by exact Hnl.
  destruct payload; [contradiction | reflexivity].
Qed.

(** X19: [parse_base64_image] accepts a data URL
    [data:image/<type>;base64,<payload>] exactly as it accepts the raw
    [payload]: the results are equal when the type is non-empty without
    [;], and the payload is one non-empty line that does not itself start
    with [data:]. *)
Theorem parse_base64_data_url_is_raw (b64decode : string -> string + list Byte.byte)
    (image_open : list Byte.byte -> string + image) (mime payload : string)
    (Hmime : mime <> EmptyString) (Hsemi : ~ In ";"%char (list_ascii_of_string mime))
    (Hpay : payload <> EmptyString) (Hnl : ~ In "010"%char (list_ascii_of_string payload))
    (Hraw : strip_prefix "data:" payload = None) :
  parse_base64_image b64decode image_open ("data:image/" ++ mime ++ ";base64," ++ payload) =
  parse_base64_image b64decode image_open payload.
Proof.
  unfold parse_base64_image.
  change (strip_prefix "data:" ("data:image/" ++ mime ++ ";base64," ++ payload))
    with (strip_prefix "data:" ("data:" ++ ("image/" ++ mime ++ ";base64," ++ payload))).
  rewrite strip_prefix_app, data_url_payload_app by assumption.
  rewrite Hraw. reflexivity.
Qed.

(** X20: a string that starts with [data:] but not with [data:image/] is
    rejected with HTTP 400 "Invalid data URL format" before any decoding;
    more generally, every failure of [parse_base64_image] is an HTTP 400
    error. *)
Theorem parse_base64_image_errors (b64decode : string -> string + list Byte.byte)
    (image_open : list Byte.byte -> string + image) (image_data : string) :
  (strip_prefix "data:" image_data <> None -> strip_prefix "data:image/" image_data = None ->
   parse_base64_image b64decode image_open image_data =
     Err (HTTPException 400 "Invalid data URL format")) /\
  (forall e, parse_base64_image b64decode image_open image_data = Err e ->
     exists detail, e = HTTPException 400 detail).
Proof.
  unfold parse_base64_image. split.
  - intros Hd Hi. destruct (strip_prefix "data:" image_data) as [r |]; [| contradiction].
    unfold data_url_payload. rewrite Hi. reflexivity.
  - intros e.
    destruct (match strip_prefix "data:" image_data with
              | Some _ => match data_url_payload image_data with
                          | Some p => Ok p
                          | None => Err (HTTPException 400 "Invalid data URL format") end
              | None => Ok image_data end) as [payload | err] eqn:Hp.
    + simpl. destruct (b64decode payload) as [msg | bytes].
      * intros H; inversion H. eexists; reflexivity.
      * destruct (Z.ltb _ _); [intros H; inversion H; eexists; reflexivity |].
        destruct (image_open bytes); intros H; inversion H. eexists; reflexivity.
    + simpl. intros H; inversion H; subst.
      destruct (strip_prefix "data:" image_data); [| discriminate].
      destruct (data_url_payload image_data); inversion Hp. eexists; reflexivity.
Qed.

(** ** Full analysis and the service state *)

Lemma get_best_face_in (cfg : config) (img : image) (faces : list face) (b : face) :
  get_best_face cfg img faces = Some b -> In b faces.
Proof.
  destruct faces as [| f0 [| f1 rest]]; intros Hb.
  - discriminate.
  - inversion Hb; left; reflexivity.
  - unfold get_best_face in Hb.
    destruct (sort_desc snd (map (fun f => (f, score (assess_face_quality cfg img f))) (f0 :: f1 :: rest)))
      as [| [bf s] t] eqn:Hs; [discriminate |].
    inversion Hb; subst bf.
    assert (Hin : In (b, s) (map (fun f => (f, score (assess_face_quality cfg img f))) (f0 :: f1 :: rest))).
    { eapply Permutation_in; [apply sort_desc_perm |]. rewrite Hs. left; reflexivity. }
    apply in_map_iff in Hin. destruct Hin as (f & Hf & Hin). inversion Hf; subst. exact Hin.
Qed.

(** X21: [analyze] reports one entry per detected face, and with no face it
    reports zero faces and no entry instead of failing (the liveness
    endpoint fails with HTTP 400 there).  With faces, the entry of the best
    face carries the quality that [embed] reports and the liveness verdict
    that the [liveness] endpoint returns for the same image. *)
Theorem analyze_agrees_with_embed_and_liveness (cfg : config) (img : image)
    (faces : list (face * face_attrs)) :
  (faces = [] -> analyze cfg img faces = {| an_faces_detected := 0; an_faces := [] |} /\
                 liveness cfg img (map fst faces) = Err (HTTPException 400 "No face detected")) /\
  an_faces_detected (analyze cfg img faces) = List.length faces /\
  List.length (an_faces (analyze cfg img faces)) = List.length faces /\
  (forall b, get_best_face cfg img (map fst faces) = Some b ->
     exists e, In e (an_faces (analyze cfg img faces)) /\ af_bbox e = face_bbox b /\
       liveness cfg img (map fst faces) = Ok (af_liveness e) /\
       embed cfg img (map fst faces) =
         Ok {| er_embedding := face_embedding b; er_score := det_score b;
               er_faces_detected := List.length faces; er_quality := Some (af_quality e) |}).
Proof.
  split; [intros ->; split; reflexivity |].
  destruct faces as [| fa fas].
  - split; [reflexivity |]. split; [reflexivity |]. intros b Hb; discriminate.
  - cbn [analyze an_faces_detected an_faces]. split; [reflexivity |].
    split; [apply length_map |].
    intros b Hb.
    pose proof (get_best_face_in _ _ _ _ Hb) as Hin.
    apply in_map_iff in Hin. destruct Hin as ([f attrs] & Hf & Hin). simpl in Hf. subst f.
    exists (analyze_face cfg img (b, attrs)).
    split; [apply in_map; exact Hin |].
    assert (Hne : map fst (fa :: fas) <> []) by discriminate.
    destruct (get_embedding_nonempty cfg img (map fst (fa :: fas)) true Hne) as [b' [Hb' He]].
    rewrite Hb in Hb'. inversion Hb'; subst b'. clear Hb'.
    unfold analyze_face, liveness, embed. rewrite He. simpl bind.
    cbn [map] in *. rewrite Hb.
    destruct (check_liveness b img) as [[il lc] ch].
    split; [reflexivity |]. split; [reflexivity |].
    simpl. rewrite length_map. reflexivity.
Qed.

(** X22: [get_redis] tries to connect at most once.  With a non-empty
    [REDIS_URL], the first call decides: it returns a client exactly when
    that connection attempt succeeds.  Every later call returns the same
    answer and keeps the same state, whether or not the server would answer
    by then; a failed attempt is never retried.  With an empty [REDIS_URL]
    no connection is ever attempted and the in-memory gallery is used. *)
Theorem get_redis_connects_once (REDIS_URL : string) (ping_ok : bool)
    (Hurl : REDIS_URL <> EmptyString) :
  fst (get_redis REDIS_URL ping_ok RedisUnset) = ping_ok /\
  snd (get_redis REDIS_URL ping_ok RedisUnset) <> RedisUnset /\
  (forall ping_ok',
     get_redis REDIS_URL ping_ok' (snd (get_redis REDIS_URL ping_ok RedisUnset)) =
     get_redis REDIS_URL ping_ok RedisUnset) /\
  (forall ping_ok' st, st <> RedisConnected ->
     fst (get_redis EmptyString ping_ok' st) = false /\ snd (get_redis EmptyString ping_ok' st) = st).
Proof.
  destruct REDIS_URL as [| c u]; [contradiction |].
  split; [| split; [| split]].
  - destruct ping_ok; reflexivity.
  - destruct ping_ok; discriminate.
  - intros p. destruct ping_ok; reflexivity.
  - intros p st Hst. destruct st; [split; reflexivity | contradiction | split; reflexivity].
Qed.

(** ** Instances of the properties above *)

(** A crop whose spectrum mean exceeds the central-window mean. *)
Definition textured_stats : live_stats :=
  {| low_freq := 100; spectrum_mean := 150;
     channels := Some ((150, 100, 80), (60, 50, 40)); texture_grad := 20 |}.

Definition textured_image : image :=
  {| blur_crop := fun _ => BlurGray 250 15; live_crop := fun _ => LiveRegion textured_stats |}.

Definition one_user_gallery : gallery := [("a", enrolled [1; 0])].

Lemma one_user_gallery_same_length : same_length_gallery [1; 0] one_user_gallery.
Proof. intros u d [H | []]. inversion H; reflexivity. Qed.

Lemma one_user_gallery_nodup : NoDup (map fst one_user_gallery).
Proof. constructor; [simpl; tauto | constructor]. Qed.

Lemma upright_embedding :
  get_embedding default_config warm_image [upright_face] true =
    Ok ([1; 0], 0.9, 1%nat, Some (assess_face_quality default_config warm_image upright_face)).
Proof. reflexivity. Qed.

Lemma compare_frontal :
  exists r, compare default_config warm_image [frontal_face [1; 0]] warm_image [upright_face] = Ok r.
Proof.
  unfold compare. cbn [get_embedding get_best_face bind face_embedding frontal_face upright_face].
  rewrite cosine_probe_self. eexists; reflexivity.
Qed.

(** The frontal box with detection confidence 0.5: quality 0.85. *)
Definition dim_face : face :=
  {| face_bbox := {| x1 := 0; y1 := 0; x2 := 200; y2 := 200 |};
     det_score := 0.5; pose := None; face_embedding := [0; 1] |}.

Lemma dim_face_score : score (assess_face_quality default_config warm_image dim_face) = 0.85.
Proof.
  unfold assess_face_quality, quality_score, calculate_blur, pose_angles. simpl.
  replace ((200 - 0) * (200 - 0)) with (IZR 40000) by (simpl; lra).
  rewrite py_int_IZR.
  rewrite (Rmin_left (500 / 500)) by lra.
  rewrite (Rmin_left (IZR 40000 / (200 * 200))) by lra.
  rewrite Rabs_R0.
  replace (0.5 * 0.3 + (1 - (0 + 0 + 0) / 180) * 0.25 + (1 - (1 - 500 / 500)) * 0.25 +
           IZR 40000 / (200 * 200) * 0.2) with 0.85 by lra.
  apply (py_round_exact _ _ 850). simpl. lra.
Qed.

(** Of two faces, the second and sharper one is chosen. *)
Lemma get_best_face_dim_frontal :
  get_best_face default_config warm_image [dim_face; frontal_face [1; 0]] = Some (frontal_face [1; 0]).
Proof.
  unfold get_best_face. cbn [map sort_desc].
  rewrite dim_face_score, frontal_face_score.
  cbn [insert_desc snd]. decide_Rle. reflexivity.
Qed.

Lemma get_best_face_highest_witness :
  get_best_face default_config warm_image [dim_face; frontal_face [1; 0]] = Some (frontal_face [1; 0]) /\
  exists pre post, [dim_face; frontal_face [1; 0]] = (pre ++ frontal_face [1; 0] :: post)%list /\
    Forall (fun f => score (assess_face_quality default_config warm_image f) < 1) pre.
Proof.
  split; [exact get_best_face_dim_frontal |].
  destruct (get_best_face_highest default_config warm_image [dim_face; frontal_face [1; 0]]
              (frontal_face [1; 0]) get_best_face_dim_frontal) as (pre & post & H & Hpre & _).
  exists pre, post. split; [exact H |]. rewrite frontal_face_score in Hpre. exact Hpre.
Defined.

Lemma calculate_blur_range_witness :
  blur_stats_nonneg textured_image (face_bbox upright_face) /\
  0 <= calculate_blur default_config textured_image (face_bbox upright_face) <= 1.
Proof.
  assert (H : blur_stats_nonneg textured_image (face_bbox upright_face))
    by (unfold blur_stats_nonneg; simpl; lra).
  split; [exact H | exact (calculate_blur_range default_config textured_image _ H)].
Defined.

Lemma quality_score_bounds_witness :
  det_score upright_face <= 1 /\
  score (assess_face_quality default_config textured_image upright_face) <= 1.
Proof.
  assert (H : det_score upright_face <= 1) by (simpl; lra).
  split; [exact H | exact (proj1 (quality_score_bounds default_config textured_image upright_face H))].
Defined.

Lemma liveness_confidence_range_witness :
  0 <= det_score upright_face <= 1 /\
  0 <= snd (fst (check_liveness upright_face textured_image)) <= 1.
Proof.
  assert (Hd : 0 <= det_score upright_face <= 1) by (simpl; lra).
  split; [exact Hd |].
  apply (liveness_confidence_range upright_face textured_image Hd).
  intros st H. simpl in H. inversion H; subst. unfold live_stats_valid; simpl; lra.
Defined.

Lemma unenroll_removes_user_witness :
  exists g', unenroll "a" one_user_gallery = Ok ({| un_user_id := "a"; un_deleted := true |}, g') /\
    load_from_gallery "a" g' = None.
Proof.
  destruct (proj2 (unenroll_removes_user "a" one_user_gallery one_user_gallery_nodup)
              (enrolled [1; 0]) eq_refl) as (g' & H1 & H2 & _ & _).
  exists g'. split; assumption.
Defined.


Lemma enroll_frame_witness :
  exists resp g',
    enroll default_config "t" one_user_gallery "b" None None warm_image [frontal_face [0; 1]] =
      Ok (resp, g') /\
    load_from_gallery "a" g' = load_from_gallery "a" one_user_gallery.
Proof.
  destruct (enroll_frontal "t" one_user_gallery "b" [0; 1]) as [resp [He _]].
  exists resp, (save_to_gallery "t" "b" [0; 1] None None one_user_gallery). split; [exact He |].
  apply (proj1 (enroll_frame default_config "t" one_user_gallery _ "b" None None warm_image
                  [frontal_face [0; 1]] resp He)).
  discriminate.
Defined.

Lemma enroll_success_quality_gate_witness :
  exists resp g',
    enroll default_config "t" one_user_gallery "b" None None warm_image [frontal_face [0; 1]] =
      Ok (resp, g') /\ en_success resp = true /\
    exists b, get_best_face default_config warm_image [frontal_face [0; 1]] = Some b /\
      QUALITY_THRESHOLD default_config <= score (assess_face_quality default_config warm_image b).
Proof.
  destruct (enroll_frontal "t" one_user_gallery "b" [0; 1]) as [resp [He Hs]].
  exists resp, (save_to_gallery "t" "b" [0; 1] None None one_user_gallery).
  split; [exact He |]. split; [exact Hs |].
  destruct (enroll_success_quality_gate default_config "t" one_user_gallery _ "b" None None
              warm_image [frontal_face [0; 1]] resp He Hs) as (b & Hb & _ & Hth & _).
  exists b. split; assumption.
Defined.

Lemma enroll_listing_witness :
  exists resp g',
    enroll default_config "t" one_user_gallery "b" None None warm_image [frontal_face [0; 1]] =
      Ok (resp, g') /\ gl_total (list_gallery g') = 2%nat.
Proof.
  destruct (enroll_frontal "t" one_user_gallery "b" [0; 1]) as [resp [He Hs]].
  exists resp, (save_to_gallery "t" "b" [0; 1] None None one_user_gallery).
  split; [exact He |].
  destruct (enroll_listing default_config "t" one_user_gallery _ "b" None None warm_image
              [frontal_face [0; 1]] resp false ModelLoaded false He Hs) as [Ht _].
  rewrite Ht. reflexivity.
Defined.

Lemma search_agrees_with_verify_witness :
  exists sr vr,
    search default_config one_user_gallery warm_image [upright_face] 1 None = Ok sr /\
    verify default_config one_user_gallery "a" warm_image [upright_face] = Ok vr /\
    (vr_verified vr = true <-> exists m, In m (sr_matches sr) /\ sm_user_id m = "a").
Proof.
  destruct (search_agrees_with_verify default_config one_user_gallery warm_image [upright_face] 1 "a"
              (enrolled [1; 0]) [1; 0] 0.9 1
              (Some (assess_face_quality default_config warm_image upright_face))
              one_user_gallery_nodup upright_embedding one_user_gallery_same_length
              (le_n 1) eq_refl) as (sr & vr & H1 & H2 & H3 & _).
  exists sr, vr. tauto.
Defined.

Lemma compare_agrees_with_enroll_verify_witness :
  exists resp g' r v,
    enroll default_config "t" [] "u1" None None warm_image [frontal_face [1; 0]] = Ok (resp, g') /\
    compare default_config warm_image [frontal_face [1; 0]] warm_image [upright_face] = Ok r /\
    verify default_config g' "u1" warm_image [upright_face] = Ok v /\
    vr_verified v = cr_match r.
Proof.
  destruct (enroll_frontal "t" [] "u1" [1; 0]) as [resp [He Hs]].
  destruct compare_frontal as [r Hc].
  destruct (compare_agrees_with_enroll_verify default_config "t" [] _ "u1" None None
              warm_image [frontal_face [1; 0]] warm_image [upright_face] resp r He Hs Hc)
    as (v & Hv & _ & Hm & _).
  exists resp, (save_to_gallery "t" "u1" [1; 0] None None []), r, v. tauto.
Defined.

Lemma compare_symmetric_witness :
  exists r r',
    compare default_config warm_image [frontal_face [1; 0]] warm_image [upright_face] = Ok r /\
    compare default_config warm_image [upright_face] warm_image [frontal_face [1; 0]] = Ok r' /\
    cr_similarity r' = cr_similarity r.
Proof.
  destruct compare_frontal as [r Hc].
  destruct (compare_symmetric default_config warm_image [frontal_face [1; 0]] warm_image
              [upright_face] r Hc) as (r' & H1 & H2 & _).
  exists r, r'. tauto.
Defined.

Lemma search_matches_wellformed_witness :
  exists sr, search default_config one_user_gallery warm_image [upright_face] 1 None = Ok sr /\
    (List.length (sr_matches sr) <= 1)%nat /\ NoDup (map sm_user_id (sr_matches sr)).
Proof.
  pose proof (search_result default_config one_user_gallery warm_image [upright_face] 1 None
                [1; 0] 0.9 1 _ upright_embedding one_user_gallery_same_length) as Hs.
  eexists. split; [exact Hs |].
  destruct (search_matches_wellformed default_config one_user_gallery warm_image [upright_face] 1 None
              _ one_user_gallery_nodup Hs) as (H1 & H2 & _).
  split; assumption.
Defined.


Lemma parse_base64_data_url_is_raw_witness :
  parse_base64_image (fun _ => inr []) (fun _ => inl "cannot identify image file")
    "data:image/png;base64,iVBORw0KGgo=" =
  parse_base64_image (fun _ => inr []) (fun _ => inl "cannot identify image file") "iVBORw0KGgo=".
Proof.
  exact (parse_base64_data_url_is_raw (fun _ => inr []) (fun _ => inl "cannot identify image file")
           "png" "iVBORw0KGgo=" ltac:(discriminate) ltac:(simpl; intuition discriminate)
           ltac:(discriminate) ltac:(simpl; intuition discriminate) eq_refl).
Defined.

Lemma get_redis_connects_once_witness :
  fst (get_redis "redis://localhost:6379" false RedisUnset) = false /\
  snd (get_redis "redis://localhost:6379" false RedisUnset) <> RedisUnset.
Proof.
  destruct (get_redis_connects_once "redis://localhost:6379" false ltac:(discriminate))
    as (H1 & H2 & _). split; assumption.
Defined.
